(** * campy / FLIR back end: the acquisition loop and the camera preparation

    A shallow embedding of [campy/cameras/flir/cam.py] ([GrabFrames],
    [CloseCamera]) and of [prepare_camera] from
    [campy/cameras/flir/CameraPreparation.py].

    Conventions of the embedding.
    - Python integers are [Z].  Frame rates ([frameRate], [displayFrameRate])
      and [displayDownsample] are integers, as the configuration files have
      them; the two durations ([recTimeInSec], [chunkLengthInSec]) and every
      value the code obtains by true division are exact rationals [Q]
      standing for Python floats.
    - The camera, the stop queue and the interpreter's interrupt are the
      environment: a run is driven by a script that gives, for every call
      into the environment, what that call returned or raised.
    - Python lists and deques that the code only appends to are Rocq lists
      with [l ++ [x]] for [l.append(x)].
    - Everything the code does to the outside (prints, sleeps, SDK calls) is
      recorded, in order, as a list of [event]s. *)

From Stdlib Require Import List ZArith QArith Qround Lia Bool String FinFun Sorted.
Import ListNotations.
Open Scope Z_scope.

(** ** Python exceptions and results *)

Module Py.

(** The exception classes that matter to the handlers of [cam.py]:
    [KeyboardInterrupt] derives from [BaseException] only, all the others
    derive from [Exception]. *)
Inductive exn : Type :=
| SpinnakerException
| ZeroDivisionError
| ValueError
| UnboundLocalError
| NameError
| OtherException
| KeyboardInterrupt.

(** [isinstance(e, Exception)] *)
Definition is_Exception (e : exn) : bool :=
  match e with
  | KeyboardInterrupt => false
  | _ => true
  end.

(** [isinstance(e, PySpin.SpinnakerException)] *)
Definition is_SpinnakerException (e : exn) : bool :=
  match e with
  | SpinnakerException => true
  | _ => false
  end.

Inductive result (A : Type) : Type :=
| Ok (a : A)
| Raise (e : exn).
Arguments Ok {A} a.
Arguments Raise {A} e.

(** [round(q)] on a float: to the nearest integer, ties to the even one. *)
Definition round (q : Q) : Z :=
  let f := Qfloor q in
  match Qcompare (q - inject_Z f) (1 # 2) with
  | Lt => f
  | Gt => f + 1
  | Eq => if Z.even f then f else f + 1
  end.

(** [a % b] on integers: the result has the sign of [b], as [Z.modulo];
    a zero divisor raises. *)
Definition mod_ (a b : Z) : result Z :=
  if b =? 0 then Raise ZeroDivisionError else Ok (a mod b).

(** [a / q] with a float divisor. *)
Definition truediv (a : Z) (q : Q) : result Q :=
  if Qeq_bool q 0 then Raise ZeroDivisionError else Ok (inject_Z a / q)%Q.

(** [l[::d]]: every [d]-th element.  [every d skip l] keeps an element when
    [skip] reaches zero and then skips [d - 1] elements. *)
Fixpoint every {A : Type} (d skip : nat) (l : list A) : list A :=
  match l with
  | [] => []
  | x :: r =>
      match skip with
      | O => x :: every d (d - 1) r
      | S k => every d k r
      end
  end.

(** The elements [l[::d]] selects when [d] is not zero: from the front for a
    positive step, from the back for a negative one. *)
Definition stride {A : Type} (d : Z) (l : list A) : list A :=
  if 0 <? d then every (Z.to_nat d) 0 l
  else every (Z.to_nat (- d)) 0 (rev l).

(** [l[::d]]; a zero step raises [ValueError]. *)
Definition slice_step {A : Type} (d : Z) (l : list A) : result (list A) :=
  if d =? 0 then Raise ValueError else Ok (stride d l).

End Py.

Import Py.

(** ** Configuration *)

(** The keys of [cam_params] that [GrabFrames] and [CloseCamera] read. *)
Record cam_params : Type := mkParams {
  n_cam : Z;
  cameraName : string;
  recTimeInSec : Q;
  frameRate : Z;
  chunkLengthInSec : Q;
  displayFrameRate : Z;
  displayDownsample : Z
}.

(** [numImagesToGrab = cam_params['recTimeInSec'] * cam_params['frameRate']] *)
Definition numImagesToGrab (p : cam_params) : Q :=
  (recTimeInSec p * inject_Z (frameRate p))%Q.

(** [chunkLengthInFrames =
       int(round(cam_params["chunkLengthInSec"] * cam_params['frameRate']))] *)
Definition chunkLengthInFrames (p : cam_params) : Z :=
  Py.round (chunkLengthInSec p * inject_Z (frameRate p))%Q.

(** The value of [frameRatio]: [float('inf')] or an integer. *)
Inductive ratio : Type :=
| RInf
| RInt (z : Z).

Definition frameRatio (p : cam_params) : ratio :=
  if displayFrameRate p <=? 0 then RInf
  else if (0 <? displayFrameRate p) && (displayFrameRate p <=? frameRate p)
       then RInt (Py.round (inject_Z (frameRate p) / inject_Z (displayFrameRate p))%Q)
       else RInt (frameRate p).

(** [cnt % frameRatio == 0].  With [frameRatio = inf] and [cnt >= 0] the
    remainder is [cnt] itself. *)
Definition mod_ratio_is_zero (c : Z) (r : ratio) : result bool :=
  match r with
  | RInf => Ok (c =? 0)
  | RInt z =>
      match Py.mod_ c z with
      | Ok m => Ok (m =? 0)
      | Raise e => Raise e
      end
  end.

(** ** Images *)

(** A frame is a two-dimensional array of pixel values, row by row. *)
Definition image : Type := list (list Z).

(** [grabResult.Array[::d, ::d]]: the step [d] along the rows and along the
    columns. *)
Definition downsample (d : Z) (img : image) : result image :=
  match Py.slice_step d img with
  | Raise e => Raise e
  | Ok rows => Ok (map (Py.stride d) rows)
  end.

(** ** Observable effects *)

Inductive event : Type :=
| EvBeginAcquisition                      (* camera.BeginAcquisition() *)
| EvPrintReady (name : string)            (* print(name, "ready to trigger.") *)
| EvGetNextImage (returned : bool)        (* camera.GetNextImage(timeout), and
                                             whether it returned a grab result *)
| EvRelease                               (* grabResult.Release() *)
| EvPrintReport (n c fps : Z)             (* 'Camera %i collected %i frames at %i fps.' *)
| EvPrintError (e : exn)                  (* print('Error: %s' % ex) *)
| EvLogError (e : exn)                    (* logging.error(...) *)
| EvSleep (seconds : Q)                   (* time.sleep(seconds) *)
| EvPrintClosing (n : Z)                  (* 'Closing camera {}... Please wait.' *)
| EvSaveMetadata (frameNumber : list Z) (timeStamp : list Q)
                                          (* SaveMetadata(cam_params, grabdata) *)
| EvCameraClose                           (* camera.Close() *)
| EvStopGrabbing.                         (* camera.StopGrabbing() *)

(** ** The session state of [GrabFrames] *)

(** What [writeQueue] holds: frame arrays and the string ['STOP']. *)
Inductive wq_item : Type :=
| WFrame (img : image)
| WStop.

(** The local variables of [GrabFrames], the two queues it appends to and
    the effects so far.  [timeFirstGrab] is unbound until the first
    assignment. *)
Record state : Type := mkState {
  cnt : Z;
  timeFirstGrab : option Z;
  grabdata_timeStamp : list Q;
  grabdata_frameNumber : list Z;
  writeQueue : list wq_item;
  dispQueue : list image;
  events : list event
}.

Definition set_cnt (c : Z) (s : state) : state :=
  mkState c (timeFirstGrab s) (grabdata_timeStamp s) (grabdata_frameNumber s)
          (writeQueue s) (dispQueue s) (events s).

Definition set_timeFirstGrab (t : Z) (s : state) : state :=
  mkState (cnt s) (Some t) (grabdata_timeStamp s) (grabdata_frameNumber s)
          (writeQueue s) (dispQueue s) (events s).

Definition append_timeStamp (t : Q) (s : state) : state :=
  mkState (cnt s) (timeFirstGrab s) (grabdata_timeStamp s ++ [t])
          (grabdata_frameNumber s) (writeQueue s) (dispQueue s) (events s).

Definition append_frameNumber (n : Z) (s : state) : state :=
  mkState (cnt s) (timeFirstGrab s) (grabdata_timeStamp s)
          (grabdata_frameNumber s ++ [n]) (writeQueue s) (dispQueue s) (events s).

Definition append_writeQueue (x : wq_item) (s : state) : state :=
  mkState (cnt s) (timeFirstGrab s) (grabdata_timeStamp s) (grabdata_frameNumber s)
          (writeQueue s ++ [x]) (dispQueue s) (events s).

Definition append_dispQueue (x : image) (s : state) : state :=
  mkState (cnt s) (timeFirstGrab s) (grabdata_timeStamp s) (grabdata_frameNumber s)
          (writeQueue s) (dispQueue s ++ [x]) (events s).

Definition emit (evs : list event) (s : state) : state :=
  mkState (cnt s) (timeFirstGrab s) (grabdata_timeStamp s) (grabdata_frameNumber s)
          (writeQueue s) (dispQueue s) (events s ++ evs).

(** ** A state-and-exception monad for the body of the [try] *)

(** A statement runs on the session state and either completes or raises;
    what it did to the state before raising stays done. *)
Definition M (A : Type) : Type := state -> state * result A.

Definition ret {A : Type} (a : A) : M A := fun s => (s, Ok a).

Definition bind {A B : Type} (m : M A) (k : A -> M B) : M B :=
  fun s =>
    match m s with
    | (s', Ok a) => k a s'
    | (s', Raise e) => (s', Raise e)
    end.

Definition lift {A : Type} (r : result A) : M A := fun s => (s, r).

Definition update (f : state -> state) : M unit := fun s => (f s, Ok tt).

Definition read {A : Type} (f : state -> A) : M A := fun s => (s, Ok (f s)).

Notation "x <- m ;; k" := (bind m (fun x => k))
  (at level 61, m at next level, right associativity).
Notation "m ;;; k" := (bind m (fun _ => k))
  (at level 61, right associativity).

(** ** The body of the [try] in [GrabFrames] *)

(** [(chunkData.GetTimestamp() - timeFirstGrab) / 1e9] *)
Definition grabtime_of (ts t0 : Z) : Q := (ts - t0) # 1000000000.

(** Lines 94 to 102 of [cam.py], for a grab result with pixel array [img] and
    chunk timestamp [ts]: the frame goes to the write queue and its record to
    [grabdata].  Returns the new [cnt] and [grabtime]. *)
Definition record_frame (img : image) (ts : Z) : M (Z * Q) :=
  (* writeQueue.append(grabResult.GetNDArray()) *)
  update (append_writeQueue (WFrame img)) ;;;
  (* if cnt == 0: timeFirstGrab = chunkData.GetTimestamp() *)
  c <- read cnt ;;
  (if c =? 0 then update (set_timeFirstGrab ts) else ret tt) ;;;
  (* grabtime = (chunkData.GetTimestamp() - timeFirstGrab) / 1e9 *)
  t0 <- read timeFirstGrab ;;
  grabtime <- lift (match t0 with
                    | Some t => Ok (grabtime_of ts t)
                    | None => Raise UnboundLocalError
                    end) ;;
  (* grabdata['timeStamp'].append(grabtime) *)
  update (append_timeStamp grabtime) ;;;
  (* cnt += 1; grabdata['frameNumber'].append(cnt) *)
  update (set_cnt (c + 1)) ;;;
  update (append_frameNumber (c + 1)) ;;;
  ret (c + 1, grabtime).

(** Lines 104 to 106:
    [if cnt % frameRatio == 0: dispQueue.append(grabResult.Array[::d, ::d])] *)
Definition show_frame (p : cam_params) (c : Z) (img : image) : M unit :=
  show <- lift (mod_ratio_is_zero c (frameRatio p)) ;;
  if show : bool
  then small <- lift (downsample (displayDownsample p) img) ;;
       update (append_dispQueue small)
  else ret tt.

(** Lines 109 to 111: the throughput report,
    [if cnt % chunkLengthInFrames == 0: fps_count = int(round(cnt / grabtime))]
    and the [print]. *)
Definition report (p : cam_params) (c : Z) (grabtime : Q) : M unit :=
  m <- lift (Py.mod_ c (chunkLengthInFrames p)) ;;
  if m =? 0
  then q <- lift (Py.truediv c grabtime) ;;
       update (emit [EvPrintReport (n_cam p) c (Py.round q)])
  else ret tt.

(** Lines 91 to 111: the body of the [try] once [GetNextImage] has
    returned. *)
Definition grab_body (p : cam_params) (img : image) (ts : Z) : M unit :=
  cg <- record_frame img ts ;;
  show_frame p (fst cg) img ;;;
  (* grabResult.Release() *)
  update (emit [EvRelease]) ;;;
  report p (fst cg) (snd cg).

(** The two [except] clauses of the loop, for an exception [e] raised inside
    the [try]: [None] when neither clause matches and [e] leaves
    [GrabFrames]. *)
Definition handle (e : exn) (s : state) : option state :=
  if is_SpinnakerException e
  then Some (emit [EvPrintError e; EvSleep (1 # 10000)] s)
  else if is_Exception e
       then Some (emit [EvLogError e] s)
       else None.

(** ** [CloseCamera] *)

(** What the environment answers during one round of the [while True] of
    [CloseCamera]: the outcome of each call of the inner [try], and of the
    [time.sleep(0.1)] of its handler.  An interrupt that arrives during a call
    is that call raising [KeyboardInterrupt].  A field is read only if the
    round gets to that call.  [cam.py] does not define [SaveMetadata]; what
    the call does is the environment's, like the camera's. *)
Record close_round : Type := mkRound {
  r_SaveMetadata : result unit;
  r_sleep_1 : result unit;
  r_Close : result unit;
  r_StopGrabbing : result unit;
  r_sleep_backoff : result unit
}.

(** The inner [try] block: the calls made, and whether it got to [break]. *)
Definition close_try (fn : list Z) (tm : list Q) (r : close_round)
  : list event * result unit :=
  match r_SaveMetadata r with
  | Raise e => ([EvSaveMetadata fn tm], Raise e)
  | Ok _ =>
    match r_sleep_1 r with
    | Raise e => ([EvSaveMetadata fn tm; EvSleep 1], Raise e)
    | Ok _ =>
      match r_Close r with
      | Raise e => ([EvSaveMetadata fn tm; EvSleep 1; EvCameraClose], Raise e)
      | Ok _ =>
        match r_StopGrabbing r with
        | Raise e =>
            ([EvSaveMetadata fn tm; EvSleep 1; EvCameraClose; EvStopGrabbing], Raise e)
        | Ok _ =>
            ([EvSaveMetadata fn tm; EvSleep 1; EvCameraClose; EvStopGrabbing], Ok tt)
        end
      end
    end
  end.

Inductive close_outcome : Type :=
| CloseDone (evs : list event)          (* [break] after [StopGrabbing] *)
| CloseInterrupted (evs : list event)   (* [break] of [except KeyboardInterrupt] *)
| CloseRaised (e : exn) (evs : list event)
| CloseRetrying (evs : list event).     (* still in the loop when the script ends *)

(** The [while True] loop.  The bare [except:] of the inner [try] catches
    every exception of the block, [KeyboardInterrupt] included; the outer
    [except KeyboardInterrupt] sees only what the handler's own
    [time.sleep(0.1)] raises. *)
Fixpoint close_loop (fn : list Z) (tm : list Q) (rounds : list close_round)
  : close_outcome :=
  match rounds with
  | [] => CloseRetrying []
  | r :: rest =>
    match close_try fn tm r with
    | (evs, Ok _) => CloseDone evs
    | (evs, Raise _) =>
      match r_sleep_backoff r with
      | Raise KeyboardInterrupt => CloseInterrupted (evs ++ [EvSleep (1 # 10)])
      | Raise e => CloseRaised e (evs ++ [EvSleep (1 # 10)])
      | Ok _ =>
        match close_loop fn tm rest with
        | CloseDone evs' => CloseDone (evs ++ EvSleep (1 # 10) :: evs')
        | CloseInterrupted evs' => CloseInterrupted (evs ++ EvSleep (1 # 10) :: evs')
        | CloseRaised e evs' => CloseRaised e (evs ++ EvSleep (1 # 10) :: evs')
        | CloseRetrying evs' => CloseRetrying (evs ++ EvSleep (1 # 10) :: evs')
        end
      end
    end
  end.

Definition CloseCamera (p : cam_params) (fn : list Z) (tm : list Q)
                       (rounds : list close_round) : close_outcome :=
  match close_loop fn tm rounds with
  | CloseDone evs => CloseDone (EvPrintClosing (n_cam p + 1) :: evs)
  | CloseInterrupted evs => CloseInterrupted (EvPrintClosing (n_cam p + 1) :: evs)
  | CloseRaised e evs => CloseRaised e (EvPrintClosing (n_cam p + 1) :: evs)
  | CloseRetrying evs => CloseRetrying (EvPrintClosing (n_cam p + 1) :: evs)
  end.

(** ** [GrabFrames] *)

(** What [camera.GetNextImage(timeout)] does: it returns a grab result, with
    its pixel array and its chunk timestamp in nanoseconds, or it raises.
    The accessors of a grab result that was returned ([GetChunkData],
    [GetNDArray], [GetTimestamp], [Array], [Release]) are taken to succeed. *)
Inductive grab_outcome : Type :=
| GrabOk (img : image) (ts : Z)
| GrabRaise (e : exn).

(** What the environment answers during one round of the [while]:
    [camera.IsStreaming()], the truth value of [stopQueue], and the outcome of
    [GetNextImage] should the round call it. *)
Record tick : Type := mkTick {
  IsStreaming : bool;
  stopQueue : bool;
  GetNextImage : grab_outcome
}.

(** How a run of [GrabFrames] stands when its script is used up, or ended. *)
Inductive outcome : Type :=
| Finalized (s : state)        (* [CloseCamera] returned, ['STOP'] appended, [break] *)
| StreamEnded (s : state)      (* [camera.IsStreaming()] was false *)
| Uncaught (e : exn) (s : state)
| Closing (s : state)          (* inside [CloseCamera], still retrying *)
| Grabbing (s : state).        (* inside the [while], waiting for the next round *)

Definition final_state (o : outcome) : state :=
  match o with
  | Finalized s | StreamEnded s | Uncaught _ s | Closing s | Grabbing s => s
  end.

(** [stopQueue or cnt >= numImagesToGrab] *)
Definition stop_check (p : cam_params) (t : tick) (s : state) : bool :=
  stopQueue t || Qle_bool (numImagesToGrab p) (inject_Z (cnt s)).

(** Lines 84 to 87: finalization. *)
Definition finalize (p : cam_params) (rounds : list close_round) (s : state)
  : outcome :=
  match CloseCamera p (grabdata_frameNumber s) (grabdata_timeStamp s) rounds with
  | CloseDone evs | CloseInterrupted evs =>
      Finalized (append_writeQueue WStop (emit evs s))
  | CloseRaised e evs => Uncaught e (emit evs s)
  | CloseRetrying evs => Closing (emit evs s)
  end.

(** The [try] statement of one round: [GetNextImage], the body, the
    handlers.  [None] when an exception leaves the loop, with the state it
    leaves behind. *)
Definition try_grab (p : cam_params) (g : grab_outcome) (s : state)
  : state * option exn :=
  let s1 := emit [EvGetNextImage (match g with GrabOk _ _ => true | _ => false end)] s in
  match g with
  | GrabRaise e =>
      match handle e s1 with
      | Some s2 => (s2, None)
      | None => (s1, Some e)
      end
  | GrabOk img ts =>
      match grab_body p img ts s1 with
      | (s2, Ok _) => (s2, None)
      | (s2, Raise e) =>
          match handle e s2 with
          | Some s3 => (s3, None)
          | None => (s2, Some e)
          end
      end
  end.

(** The [while (camera.IsStreaming())] loop, one [tick] per round. *)
Fixpoint grab_loop (p : cam_params) (rounds : list close_round)
                   (script : list tick) (s : state) : outcome :=
  match script with
  | [] => Grabbing s
  | t :: rest =>
      if negb (IsStreaming t) then StreamEnded s
      else if stop_check p t s then finalize p rounds s
      else match try_grab p (GetNextImage t) s with
           | (s', None) => grab_loop p rounds rest s'
           | (s', Some e) => Uncaught e s'
           end
  end.

(** The state when the [while] is entered: [cnt = 0], empty [grabdata],
    [BeginAcquisition] called.  A queue is the sequence of what [GrabFrames]
    has appended to it; what the consumers take out at the other end is not
    part of the session. *)
Definition initial_state (p : cam_params) : state :=
  mkState 0 None [] [] [] [] [EvBeginAcquisition; EvPrintReady (cameraName p)].

Definition GrabFrames (p : cam_params) (rounds : list close_round)
                      (script : list tick) : outcome :=
  grab_loop p rounds script (initial_state p).

(** ** Reading a session *)

(** The frame payloads of a write queue, in order. *)
Definition frames (wq : list wq_item) : list image :=
  flat_map (fun x => match x with WFrame img => [img] | WStop => [] end) wq.

(** The number of calls of [GetNextImage]. *)
Definition grab_attempts (evs : list event) : nat :=
  List.length (filter (fun e => match e with EvGetNextImage _ => true | _ => false end) evs).

(** The number of calls of [GetNextImage] that returned a grab result. *)
Definition successful_grabs (evs : list event) : nat :=
  List.length (filter (fun e => match e with EvGetNextImage true => true | _ => false end) evs).

(** The number of times [CloseCamera] was entered. *)
Definition closings (evs : list event) : nat :=
  List.length (filter (fun e => match e with EvPrintClosing _ => true | _ => false end) evs).

(** The records each call of [SaveMetadata] was given. *)
Definition saved (evs : list event) : list (list Z * list Q) :=
  flat_map (fun e => match e with
                     | EvSaveMetadata fn tm => [(fn, tm)]
                     | _ => []
                     end) evs.

(** The chunk timestamps of the grab results a script holds, in order. *)
Definition hw_timestamps (script : list tick) : list Z :=
  flat_map (fun t => match GetNextImage t with GrabOk _ ts => [ts] | GrabRaise _ => [] end)
           script.

(** [1, 2, ..., n] *)
Definition numbers_1_to (n : nat) : list Z := map Z.of_nat (seq 1 n).

(** The relative timestamps of the hardware timestamps [l], counted from
    [t1]. *)
Definition relative_to (t1 : Z) (l : list Z) : list Q :=
  map (fun ts => grabtime_of ts t1) l.

(** The events of an outcome of [CloseCamera]. *)
Definition close_events (o : close_outcome) : list event :=
  match o with
  | CloseDone evs | CloseInterrupted evs | CloseRaised _ evs | CloseRetrying evs => evs
  end.

(** [CloseCamera] has returned to its caller. *)
Definition close_returned (o : close_outcome) : bool :=
  match o with
  | CloseDone _ | CloseInterrupted _ => true
  | _ => false
  end.

(** The events of a round of the [while] other than the call of
    [GetNextImage]. *)
Definition loop_event (e : event) : bool :=
  match e with
  | EvRelease | EvPrintReport _ _ _ | EvPrintError _ | EvLogError _ | EvSleep _ => true
  | _ => false
  end.

(** The events of [CloseCamera]. *)
Definition close_event (e : event) : bool :=
  match e with
  | EvPrintClosing _ | EvSaveMetadata _ _ | EvSleep _ | EvCameraClose
  | EvStopGrabbing => true
  | _ => false
  end.

(** ** A round of the [try] in closed form *)

(** The value of [timeFirstGrab] after a grab result with timestamp [ts]. *)
Definition first_grab (ts : Z) (s : state) : option Z :=
  if cnt s =? 0 then Some ts else timeFirstGrab s.

(** What lines 104 to 106 append to [dispQueue] for the frame numbered [c]:
    nothing, also when the test or the slicing raises. *)
Definition display_push (p : cam_params) (c : Z) (img : image) : list image :=
  match mod_ratio_is_zero c (frameRatio p) with
  | Ok true =>
      match downsample (displayDownsample p) img with
      | Ok small => [small]
      | Raise _ => []
      end
  | _ => []
  end.

(** Whether lines 104 to 106 complete for the frame numbered [c]. *)
Definition show_result (p : cam_params) (c : Z) (img : image) : result unit :=
  match mod_ratio_is_zero c (frameRatio p) with
  | Raise e => Raise e
  | Ok true =>
      match downsample (displayDownsample p) img with
      | Ok _ => Ok tt
      | Raise e => Raise e
      end
  | Ok false => Ok tt
  end.

(** What lines 109 to 111 print, and whether they complete, for the frame
    numbered [c] with relative timestamp [g]. *)
Definition report_outcome (p : cam_params) (c : Z) (g : Q) : list event * result unit :=
  match Py.mod_ c (chunkLengthInFrames p) with
  | Raise e => ([], Raise e)
  | Ok m =>
      if m =? 0
      then match Py.truediv c g with
           | Ok q => ([EvPrintReport (n_cam p) c (Py.round q)], Ok tt)
           | Raise e => ([], Raise e)
           end
      else ([], Ok tt)
  end.

(** ** Invariants of a session *)

(** [timeFirstGrab] is bound once a frame has been counted. *)
Definition bound (s : state) : Prop := cnt s <> 0 -> timeFirstGrab s <> None.

(** The bookkeeping of a session, with [n] the number of grab results
    obtained so far: the counter, the frame numbers [1..n], one timestamp and
    one frame payload for each. *)
Definition session_inv (s : state) : Prop :=
  let n := successful_grabs (events s) in
  cnt s = Z.of_nat n /\
  grabdata_frameNumber s = numbers_1_to n /\
  List.length (grabdata_timeStamp s) = n /\
  List.length (frames (writeQueue s)) = n /\
  bound s.

(** What finalization needs of the state it starts from. *)
Definition not_finalized (s : state) : Prop :=
  closings (events s) = 0%nat /\
  saved (events s) = [] /\
  writeQueue s = map WFrame (frames (writeQueue s)).

(** The timestamps of a session stand for the hardware timestamps [pre] of
    the grab results obtained so far. *)
Definition stamped (pre : list Z) (s : state) : Prop :=
  grabdata_timeStamp s = relative_to (hd 0 pre) pre /\
  (pre <> [] -> timeFirstGrab s = Some (hd 0 pre)) /\
  List.length pre = successful_grabs (events s).

(** ** The display *)

(** The array the display gets for a frame: every [d]-th row, and of these
    every [d]-th pixel. *)
Definition downsampled (d : Z) (img : image) : image :=
  map (Py.stride d) (Py.stride d img).

(** The pixel of an image at row [i] and column [j]. *)
Definition pixel (img : image) (i j : nat) : option Z :=
  match nth_error img i with
  | Some row => nth_error row j
  | None => None
  end.

(** The frames of a session that are due on the display with an integer
    ratio [r]: those whose frame number [r] divides. *)
Definition displayed (r d : Z) (s : state) : list image :=
  map (fun x => downsampled d (snd x))
      (filter (fun x => fst x mod r =? 0)
              (combine (grabdata_frameNumber s) (frames (writeQueue s)))).

(** The ratio the code computes when the display rate is positive. *)
Definition code_ratio (p : cam_params) : Z :=
  if displayFrameRate p <=? frameRate p
  then Py.round (inject_Z (frameRate p) / inject_Z (displayFrameRate p))%Q
  else frameRate p.

(** The cadence ratio as the specification words it:
    [round(frameRate / displayFrameRate)] clamped to at least one. *)
Definition spec_ratio (p : cam_params) : Z :=
  Z.max 1 (Py.round (inject_Z (frameRate p) / inject_Z (displayFrameRate p))%Q).

(** ** The properties asked of a run *)

(** The loop has ended through its stop check or because the camera stopped
    streaming. *)
Definition exited (o : outcome) : option state :=
  match o with
  | Finalized s | StreamEnded s => Some s
  | _ => None
  end.

(** Finalization as seen on the final state: [CloseCamera] entered once,
    [SaveMetadata] called, each time with the records the session holds, and
    the write queue is the frame payloads followed by one ['STOP']. *)
Definition finalized_once (s : state) : Prop :=
  closings (events s) = 1%nat /\
  saved (events s) <> [] /\
  Forall (eq (grabdata_frameNumber s, grabdata_timeStamp s)) (saved (events s)) /\
  writeQueue s = map WFrame (frames (writeQueue s)) ++ [WStop].

(** The property C1 asks of a run: whenever the loop has ended, through the
    stop check or because streaming ended, finalization has run once. *)
Definition finalizes_on_every_exit (p : cam_params) (rounds : list close_round)
                                   (script : list tick) : Prop :=
  forall s, exited (GrabFrames p rounds script) = Some s -> finalized_once s.

(** The property C4 asks of a run: with a positive display rate, the display
    queue holds the frames whose number the specified ratio divides, and
    [floor(N / ratio)] of them. *)
Definition cadence_as_specified (p : cam_params) (rounds : list close_round)
                                (script : list tick) : Prop :=
  let s := final_state (GrabFrames p rounds script) in
  if displayFrameRate p <=? 0 then dispQueue s = []
  else dispQueue s = displayed (spec_ratio p) (displayDownsample p) s /\
       Z.of_nat (List.length (dispQueue s))
         = Z.of_nat (successful_grabs (events s)) / spec_ratio p.

(** ** Sample sessions *)

Module Sample.

(** Ten seconds at 30 frames per second, a report every second, the display
    at 5 frames per second and half the resolution. *)
Definition params : cam_params := mkParams 0 "cam0" 10 30 1 5 2.

Definition img : image := [[1; 2; 3; 4]; [5; 6; 7; 8]; [9; 10; 11; 12]].

(** A round in which a frame is delivered. *)
Definition frame_at (ts : Z) : tick := mkTick true false (GrabOk img ts).

(** [n] frames, the [k]-th of them at [(start + k) * 33_333_333] nanoseconds. *)
Fixpoint feed (n : nat) (start : Z) : list tick :=
  match n with
  | O => []
  | S m => frame_at (start * 33333333) :: feed m (start + 1)
  end.

(** A round in which no frame is available yet. *)
Definition not_yet : tick := mkTick true false (GrabRaise SpinnakerException).

(** A round in which the stop queue is no longer empty, while a frame with
    timestamp [ts] is waiting. *)
Definition stop_at (ts : Z) : tick := mkTick true true (GrabOk img ts).

(** The display asked to run at twice the frame rate. *)
Definition fast_display : cam_params := mkParams 0 "cam0" 10 30 1 60 2.

(** A report interval of a hundredth of a second: [round(0.01 * 30) = 0]
    frames. *)
Definition short_chunk : cam_params := mkParams 0 "cam0" 10 30 (1 # 100) 5 2.

(** Twelve frames, then the stop queue is set. *)
Definition twelve_frames : list tick := feed 12 0 ++ [stop_at 399999996].

(** Two frames, then the stop queue is set. *)
Definition two_frames : list tick :=
  [frame_at 0; frame_at 33333333; stop_at 66666666].

(** A round in which the camera reports that it is no longer streaming. *)
Definition stream_over : tick := mkTick false false (GrabRaise SpinnakerException).

(** A round of [CloseCamera] in which every call succeeds. *)
Definition close_ok : close_round := mkRound (Ok tt) (Ok tt) (Ok tt) (Ok tt) (Ok tt).

(** A round of [CloseCamera] in which the interrupt arrives during
    [time.sleep(1)], inside the inner [try]. *)
Definition interrupt_in_try : close_round :=
  mkRound (Ok tt) (Raise KeyboardInterrupt) (Ok tt) (Ok tt) (Ok tt).

(** A round of [CloseCamera] in which [camera.Close()] fails and the
    interrupt arrives during the back-off [time.sleep(0.1)]. *)
Definition interrupt_in_backoff : close_round :=
  mkRound (Ok tt) (Ok tt) (Raise SpinnakerException) (Ok tt) (Raise KeyboardInterrupt).

(** A round of [CloseCamera] in which [camera.Close()] fails and nothing
    interrupts. *)
Definition close_busy : close_round :=
  mkRound (Ok tt) (Ok tt) (Raise SpinnakerException) (Ok tt) (Ok tt).

End Sample.

(** ** The metadata file *)

Module Metadata.

(** A cell of the delimited file. *)
Inductive cell : Type :=
| CStr (s : string)
| CInt (z : Z)
| CFloat (q : Q).

Definition header : list cell := [CStr "frameNumber"; CStr "timeStamp"].

(** Modelled from the spec: [SaveMetadata], which [CloseCamera] calls
    ([cam.py], line 128) and which no source file at hand defines.  The
    spec's design notes describe what the source writes: a header row
    [frameNumber,timeStamp] and then the rows of [frameNumber] zipped with
    itself, so that both columns carry the frame number. *)
Definition SaveMetadata (frameNumber : list Z) (timeStamp : list Q)
  : list (list cell) :=
  header :: map (fun r => [CInt (fst r); CInt (snd r)])
                (combine frameNumber frameNumber).

(** Modelled from the spec: the file the Metadata Recorder is required to
    write, one row per GrabRecord with the frame number and the relative
    timestamp. *)
Definition required_file (frameNumber : list Z) (timeStamp : list Q)
  : list (list cell) :=
  header :: map (fun r => [CInt (fst r); CFloat (snd r)])
                (combine frameNumber timeStamp).

(** The column of a file under the header that has [name] at index [i]. *)
Definition column (i : nat) (file : list (list cell)) : list (option cell) :=
  map (fun row => nth_error row i) (tl file).

End Metadata.

(** ** [prepare_camera] *)

Module Preparation.

Inductive step_name : Type :=
| AcquisitionMode | Exposure | Gain | Gamma | Trigger | Buffer.

Definition step_order : list step_name :=
  [AcquisitionMode; Exposure; Gain; Gamma; Trigger; Buffer].

Section Steps.

(** The camera handle with whatever the SDK keeps behind it. *)
Variable camera : Type.

(** A configuration function acts on the camera and returns [True] or
    [False], or lets an exception out. *)
Definition step : Type := camera -> camera * result bool.

Variable configure_acquisition_mode : step.
Variable configure_exposure : Z -> step.
Variable configure_gain : Q -> step.
Variable disable_gamma : step.
Variable configure_trigger : string -> step.
Variable configure_buffer : string -> Z -> step.

(** A run of [prepare_camera] so far: the camera, and the calls made with
    what each returned, in order. *)
Definition calls : Type := list (step_name * result bool).
Definition P (A : Type) : Type := camera * calls -> (camera * calls) * result A.

Definition call (n : step_name) (f : step) : P bool :=
  fun st =>
    let (cam', r) := f (fst st) in
    ((cam', snd st ++ [(n, r)]), r).

Definition pret {A : Type} (a : A) : P A := fun st => (st, Ok a).

Definition pbind {A B : Type} (m : P A) (k : A -> P B) : P B :=
  fun st =>
    match m st with
    | (st', Ok a) => k a st'
    | (st', Raise e) => (st', Raise e)
    end.

(** The nested [if]s of [prepare_camera]; [result] starts as [False] and is
    assigned only by the innermost call. *)
Definition prepare_camera (exposure_time : Z) (gain : Q) (trigger_type : string)
                          (bufferMode : string) (bufferSize : Z) : P bool :=
  let result := false in
  pbind (call AcquisitionMode configure_acquisition_mode) (fun b1 =>
  if b1 : bool then
    pbind (call Exposure (configure_exposure exposure_time)) (fun b2 =>
    if b2 : bool then
      pbind (call Gain (configure_gain gain)) (fun b3 =>
      if b3 : bool then
        pbind (call Gamma disable_gamma) (fun b4 =>
        if b4 : bool then
          pbind (call Trigger (configure_trigger trigger_type)) (fun b5 =>
          if b5 : bool then
            call Buffer (configure_buffer bufferMode bufferSize)
          else pret result)
        else pret result)
      else pret result)
    else pret result)
  else pret result).

End Steps.

(** A toy camera that remembers the settings applied to it, and on which
    setting the gain fails. *)
Definition apply_setting (name : string) : step (list string) :=
  fun cam => (cam ++ [name], Ok true).

Definition refuse_setting : step (list string) :=
  fun cam => (cam, Ok false).

Definition prepare_toy (gain_works : bool) : P (list string) bool :=
  prepare_camera (list string)
    (apply_setting "AcquisitionMode")
    (fun _ => apply_setting "ExposureTime")
    (fun _ => if gain_works then apply_setting "Gain" else refuse_setting)
    (apply_setting "GammaEnable")
    (fun _ => apply_setting "TriggerMode")
    (fun _ _ => apply_setting "StreamBufferCountManual")
    30000 0 "hardware" "OldestFirst" 100.

End Preparation.

(** ** More readings of a session *)

(** The pixel arrays of the grab results a script holds, in order. *)
Definition script_images (script : list tick) : list image :=
  flat_map (fun t => match GetNextImage t with
                     | GrabOk img _ => [img]
                     | GrabRaise _ => []
                     end) script.

(** The run ended through finalization. *)
Definition is_Finalized (o : outcome) : bool :=
  match o with
  | Finalized _ => true
  | _ => false
  end.

(** The number of calls of [grabResult.Release()]. *)
Definition releases (evs : list event) : nat :=
  List.length (filter (fun e => match e with EvRelease => true | _ => false end) evs).

(** The back-off sleeps of [CloseCamera], [time.sleep(0.1)]. *)
Definition backoffs (evs : list event) : nat :=
  List.length (filter (fun e => match e with
                                | EvSleep q => Qeq_bool q (1 # 10)
                                | _ => false
                                end) evs).

(** A throughput report is in order for a session: it names the camera, its
    frame count [c] is a positive multiple of [chunkLengthInFrames], the
    relative timestamp [g] of frame [c] is not zero and the rate printed is
    [round(c / g)]. *)
Definition report_in_order (p : cam_params) (timeStamp : list Q) (e : event) : Prop :=
  match e with
  | EvPrintReport n c fps =>
      n = n_cam p /\ 0 < c /\
      chunkLengthInFrames p <> 0 /\ c mod chunkLengthInFrames p = 0 /\
      exists g, nth_error timeStamp (Z.to_nat (c - 1)) = Some g /\
                ~ (g == 0)%Q /\ fps = Py.round (inject_Z c / g)%Q
  | _ => True
  end.

(** The counter has not gone past the target: the last frame counted was
    grabbed while the counter was below [numImagesToGrab]. *)
Definition within_target (p : cam_params) (s : state) : Prop :=
  cnt s = 0 \/ (inject_Z (cnt s - 1) < numImagesToGrab p)%Q.

(** What the handlers of the loop do for an exception [e] of the [try]. *)
Definition handler_events (e : exn) : list event :=
  if is_SpinnakerException e then [EvPrintError e; EvSleep (1 # 10000)]
  else if is_Exception e then [EvLogError e]
  else [].

(** [CloseCamera] left its loop by the [break] after [StopGrabbing]. *)
Definition is_CloseDone (o : close_outcome) : bool :=
  match o with
  | CloseDone _ => true
  | _ => false
  end.

(** Configurations at the edge of the data model. *)
Module Edge.

(** No recording time. *)
Definition no_time : cam_params := mkParams 0 "cam0" 0 30 1 5 2.

(** The display step set to zero, the display at the frame rate. *)
Definition zero_step : cam_params := mkParams 0 "cam0" 10 30 1 30 0.

(** An interrupt while [GetNextImage] waits. *)
Definition interrupted : tick := mkTick true false (GrabRaise KeyboardInterrupt).

End Edge.

(** ** The Spinnaker SDK, as [CameraPreparation.py] and [OpenCamera] use it *)

(** The camera is reached only through SDK calls.  What a call does to the
    device and what it returns or raises is the SDK's: the functions below
    are written over an arbitrary SDK, and a run keeps the list of the calls
    made, each with its outcome.  Console output is left out; the SDK calls
    made to build a message are kept. *)
Module Spinnaker.

(** [PySpin.NI], [NA], [WO], [RO], [RW] *)
Inductive access_mode : Type := NI | NA | WO | RO | RW.

(** [mode == PySpin.RW] *)
Definition is_RW (m : access_mode) : bool :=
  match m with RW => true | _ => false end.

(** [mode == PySpin.RO] *)
Definition is_RO (m : access_mode) : bool :=
  match m with RO => true | _ => false end.

(** The nodes the code names. *)
Inductive node : Type :=
| AcquisitionMode | ExposureAuto | ExposureTime | GainAuto | Gain | GammaEnable
| TriggerMode | TriggerSelector | TriggerSource
| StreamBufferHandlingMode | StreamBufferCountMode | StreamBufferCountManual
| DeviceSerialNumber | DeviceDisplayName | Width | Height.

(** What the predicates and getters are applied to: a node, an entry of an
    enumeration node obtained by name, or its current entry. *)
Inductive handle : Type :=
| Node (n : node)
| Entry (n : node) (name : string)
| CurrentEntry (n : node).

(** The [PySpin] constants the code writes. *)
Inductive constant : Type :=
| ExposureAuto_Off | TriggerMode_Off | TriggerMode_On
| TriggerSelector_FrameStart | TriggerSource_Line0 | TriggerSource_Software.

Inductive value : Type :=
| VConst (c : constant)
| VFloat (q : Q)
| VBool (b : bool)
| VInt (z : Z).

Module Call.

(** An SDK call with its arguments. *)
Inductive call : Type :=
| GetInstance                              (* PySpin.System.GetInstance() *)
| GetCameras                               (* system.GetCameras() *)
| GetItem (i : Z)                          (* cameras[i] *)
| DeInit | Init                            (* camera.DeInit(), camera.Init() *)
| GetNodeMap | GetTLStreamNodeMap
| GetNode (n : node)                       (* nodemap.GetNode(name), cast to its pointer type *)
| GetEntryByName (n : node) (name : string)
| GetCurrentEntry (n : node)
| IsAvailable (h : handle) | IsWritable (h : handle) | IsReadable (h : handle)
| GetAccessMode (n : node)
| GetValue (h : handle)
| GetMax (n : node)
| SetIntValue (n : node) (z : Z)
| SetValue (n : node) (v : value)
| GetDisplayName (h : handle)
| ToString (n : node).

End Call.

(** What a call returned, for the record of a run. *)
Inductive answer : Type :=
| AUnit
| ABool (b : bool)
| AMode (m : access_mode)
| AInt (z : Z)
| AFloat (q : Q)
| AStr (s : string).

(** An SDK over a device state [camera]: how a call acts on the device and
    what it returns, by the type of what the code expects back. *)
Record Sdk (camera : Type) : Type := mkSdk {
  run : Call.call -> camera -> camera * result unit;
  ask_bool : Call.call -> camera -> camera * result bool;
  ask_mode : Call.call -> camera -> camera * result access_mode;
  ask_int : Call.call -> camera -> camera * result Z;
  ask_float : Call.call -> camera -> camera * result Q;
  ask_str : Call.call -> camera -> camera * result string
}.
Arguments run {camera}.
Arguments ask_bool {camera}.
Arguments ask_mode {camera}.
Arguments ask_int {camera}.
Arguments ask_float {camera}.
Arguments ask_str {camera}.

(** The calls of a run, in order, each with its outcome. *)
Definition log : Type := list (Call.call * result answer).

Definition answered {A : Type} (inj : A -> answer) (r : result A) : result answer :=
  match r with
  | Ok a => Ok (inj a)
  | Raise e => Raise e
  end.

(** The calls of a log that write to the device. *)
Definition writes (l : log) : list Call.call :=
  flat_map (fun x => match fst x with
                     | Call.SetIntValue n z => [Call.SetIntValue n z]
                     | Call.SetValue n v => [Call.SetValue n v]
                     | _ => []
                     end) l.

(** The node a call writes to, if it writes. *)
Definition written_node (c : Call.call) : option node :=
  match c with
  | Call.SetIntValue n _ | Call.SetValue n _ => Some n
  | _ => None
  end.

(** [min(a, b)] *)
Definition py_min (a b : Q) : Q := if Qle_bool a b then a else b.

(** The gain [configure_gain] writes for a requested [gain], with [max_gain]
    the first reading of the maximum and [mx] the second. *)
Definition clamped_gain (gain max_gain mx : Q) : Q :=
  if Qle_bool gain mx then (if Qle_bool gain 0 then 0 else gain) else max_gain.

(** The write [configure_trigger] makes for the trigger type. *)
Definition trigger_source_writes (trigger_type : string) : list Call.call :=
  if String.eqb trigger_type "hardware"
  then [Call.SetValue TriggerSource (VConst TriggerSource_Line0)]
  else if String.eqb trigger_type "software"
       then [Call.SetValue TriggerSource (VConst TriggerSource_Software)]
       else [].

(** The buffer handling modes [configure_buffer] knows. *)
Definition known_mode (bufferMode : string) : bool :=
  String.eqb bufferMode "OldestFirst" || String.eqb bufferMode "NewestFirst"
  || String.eqb bufferMode "NewestOnly" || String.eqb bufferMode "OldestFirstOverwrite".

(** The outcome of the last call of a log. *)
Definition final_outcome (l : log) : option (result answer) :=
  match rev l with
  | x :: _ => Some (snd x)
  | [] => None
  end.

Section Device.

Context {camera : Type} (sdk : Sdk camera).

(** A piece of code that talks to the device: it runs on the device state and
    the log, and completes or raises. *)
Definition Dev (A : Type) : Type := camera * log -> (camera * log) * result A.

Definition dret {A : Type} (a : A) : Dev A := fun st => (st, Ok a).

Definition dbind {A B : Type} (m : Dev A) (k : A -> Dev B) : Dev B :=
  fun st =>
    match m st with
    | (st', Ok a) => k a st'
    | (st', Raise e) => (st', Raise e)
    end.

Definition perform {A : Type} (op : Sdk camera -> Call.call -> camera -> camera * result A)
                   (inj : A -> answer) (c : Call.call) : Dev A :=
  fun st =>
    let (cam', r) := op sdk c (fst st) in
    ((cam', snd st ++ [(c, answered inj r)]), r).

Notation "x <~ m ;; k" := (dbind m (fun x => k))
  (at level 61, m at next level, right associativity).
Notation "m ;;> k" := (dbind m (fun _ => k))
  (at level 61, right associativity).

Definition GetInstance : Dev unit := perform run (fun _ => AUnit) Call.GetInstance.
Definition GetCameras : Dev unit := perform run (fun _ => AUnit) Call.GetCameras.
Definition GetItem (i : Z) : Dev unit := perform run (fun _ => AUnit) (Call.GetItem i).
Definition DeInit : Dev unit := perform run (fun _ => AUnit) Call.DeInit.
Definition Init : Dev unit := perform run (fun _ => AUnit) Call.Init.
Definition GetNodeMap : Dev unit := perform run (fun _ => AUnit) Call.GetNodeMap.
Definition GetTLStreamNodeMap : Dev unit :=
  perform run (fun _ => AUnit) Call.GetTLStreamNodeMap.
Definition GetNode (n : node) : Dev unit :=
  perform run (fun _ => AUnit) (Call.GetNode n).
Definition GetEntryByName (n : node) (name : string) : Dev unit :=
  perform run (fun _ => AUnit) (Call.GetEntryByName n name).
Definition GetCurrentEntry (n : node) : Dev unit :=
  perform run (fun _ => AUnit) (Call.GetCurrentEntry n).
Definition IsAvailable (h : handle) : Dev bool :=
  perform ask_bool ABool (Call.IsAvailable h).
Definition IsWritable (h : handle) : Dev bool :=
  perform ask_bool ABool (Call.IsWritable h).
Definition IsReadable (h : handle) : Dev bool :=
  perform ask_bool ABool (Call.IsReadable h).
Definition GetAccessMode (n : node) : Dev access_mode :=
  perform ask_mode AMode (Call.GetAccessMode n).
Definition GetValue (h : handle) : Dev Z := perform ask_int AInt (Call.GetValue h).
Definition GetValue_str (h : handle) : Dev string :=
  perform ask_str AStr (Call.GetValue h).
Definition GetMax (n : node) : Dev Q := perform ask_float AFloat (Call.GetMax n).
Definition GetMax_int (n : node) : Dev Z := perform ask_int AInt (Call.GetMax n).
Definition SetIntValue (n : node) (z : Z) : Dev unit :=
  perform run (fun _ => AUnit) (Call.SetIntValue n z).
Definition SetValue (n : node) (v : value) : Dev unit :=
  perform run (fun _ => AUnit) (Call.SetValue n v).
Definition GetDisplayName (h : handle) : Dev string :=
  perform ask_str AStr (Call.GetDisplayName h).
Definition ToString (n : node) : Dev string :=
  perform ask_str AStr (Call.ToString n).

(** [not a() or not b()]: [b] is asked only if [a] holds. *)
Definition not_both (a b : Dev bool) : Dev bool :=
  x <~ a ;;
  if x : bool then (y <~ b ;; dret (negb y)) else dret true.

(** [try: ... except PySpin.SpinnakerException: return False] *)
Definition except_spinnaker (body : Dev bool) : Dev bool :=
  fun st =>
    match body st with
    | (st', Raise SpinnakerException) => (st', Ok false)
    | out => out
    end.

(** [configure_acquisition_mode(cam)], lines 10 to 67. *)
Definition configure_acquisition_mode : Dev bool :=
  except_spinnaker (
    GetNodeMap ;;>
    GetNode AcquisitionMode ;;>
    bad <~ not_both (IsAvailable (Node AcquisitionMode))
                    (IsWritable (Node AcquisitionMode)) ;;
    if bad : bool then dret false else
    GetEntryByName AcquisitionMode "Continuous" ;;>
    bad <~ not_both (IsAvailable (Entry AcquisitionMode "Continuous"))
                    (IsReadable (Entry AcquisitionMode "Continuous")) ;;
    if bad : bool then dret false else
    v <~ GetValue (Entry AcquisitionMode "Continuous") ;;
    SetIntValue AcquisitionMode v ;;>
    dret true).

(** [configure_exposure(cam, exposure_time)], lines 70 to 127. *)
Definition configure_exposure (exposure_time : Z) : Dev bool :=
  except_spinnaker (
    m <~ GetAccessMode ExposureAuto ;;
    if negb (is_RW m) then dret false else
    SetValue ExposureAuto (VConst ExposureAuto_Off) ;;>
    m <~ GetAccessMode ExposureTime ;;
    if negb (is_RW m) then dret false else
    mx <~ GetMax ExposureTime ;;
    SetValue ExposureTime (VFloat (py_min mx (inject_Z exposure_time))) ;;>
    dret true).

(** [configure_gain(cam, gain)], lines 130 to 187.  [cam.Gain.GetMax()] is
    asked twice: once for [max_gain], once for the comparison. *)
Definition configure_gain (gain : Q) : Dev bool :=
  except_spinnaker (
    GetNodeMap ;;>
    GetNode GainAuto ;;>
    bad <~ not_both (IsAvailable (Node GainAuto)) (IsWritable (Node GainAuto)) ;;
    if bad : bool then dret false else
    GetEntryByName GainAuto "Off" ;;>
    ok <~ IsAvailable (Entry GainAuto "Off") ;;
    if negb ok then dret false else
    v <~ GetValue (Entry GainAuto "Off") ;;
    SetIntValue GainAuto v ;;>
    GetNode Gain ;;>
    bad <~ not_both (IsAvailable (Node Gain)) (IsWritable (Node Gain)) ;;
    if bad : bool then dret false else
    max_gain <~ GetMax Gain ;;
    mx <~ GetMax Gain ;;
    SetValue Gain (VFloat (clamped_gain gain max_gain mx)) ;;>
    dret true).

(** [disable_gamma(cam)], lines 190 to 220. *)
Definition disable_gamma : Dev bool :=
  except_spinnaker (
    GetNodeMap ;;>
    GetNode GammaEnable ;;>
    bad <~ not_both (IsAvailable (Node GammaEnable)) (IsWritable (Node GammaEnable)) ;;
    if bad : bool then dret false else
    SetValue GammaEnable (VBool false) ;;>
    dret true).

(** [configure_trigger(cam, trigger_type)], lines 223 to 289.  After the
    access mode of [TriggerSelector] is checked, the constant
    [TriggerSelector_FrameStart] is written to [TriggerSource] (line 265). *)
Definition configure_trigger (trigger_type : string) : Dev bool :=
  except_spinnaker (
    m <~ GetAccessMode TriggerMode ;;
    if negb (is_RW m) then dret false else
    SetValue TriggerMode (VConst TriggerMode_Off) ;;>
    m <~ GetAccessMode TriggerSelector ;;
    if negb (is_RW m) then dret false else
    SetValue TriggerSource (VConst TriggerSelector_FrameStart) ;;>
    m <~ GetAccessMode TriggerSource ;;
    if negb (is_RW m) then dret false else
    (if String.eqb trigger_type "hardware"
     then SetValue TriggerSource (VConst TriggerSource_Line0)
     else if String.eqb trigger_type "software"
          then SetValue TriggerSource (VConst TriggerSource_Software)
          else dret tt) ;;>
    SetValue TriggerMode (VConst TriggerMode_On) ;;>
    dret true).

(** One branch of the [if]/[elif] chain of [configure_buffer]. *)
Definition set_handling_mode (name : string) : Dev bool :=
  GetEntryByName StreamBufferHandlingMode name ;;>
  v <~ GetValue (Entry StreamBufferHandlingMode name) ;;
  SetIntValue StreamBufferHandlingMode v ;;>
  GetDisplayName (Entry StreamBufferHandlingMode name) ;;>
  dret true.

(** [configure_buffer(cam, bufferMode, bufferSize)], lines 292 to 355; it has
    no [try]. *)
Definition configure_buffer (bufferMode : string) (bufferSize : Z) : Dev bool :=
  GetTLStreamNodeMap ;;>
  GetNode StreamBufferHandlingMode ;;>
  bad <~ not_both (IsAvailable (Node StreamBufferHandlingMode))
                  (IsWritable (Node StreamBufferHandlingMode)) ;;
  if bad : bool then dret false else
  GetCurrentEntry StreamBufferHandlingMode ;;>
  bad <~ not_both (IsAvailable (CurrentEntry StreamBufferHandlingMode))
                  (IsReadable (CurrentEntry StreamBufferHandlingMode)) ;;
  if bad : bool then dret false else
  GetNode StreamBufferCountMode ;;>
  bad <~ not_both (IsAvailable (Node StreamBufferCountMode))
                  (IsWritable (Node StreamBufferCountMode)) ;;
  if bad : bool then dret false else
  GetEntryByName StreamBufferCountMode "Manual" ;;>
  bad <~ not_both (IsAvailable (Entry StreamBufferCountMode "Manual"))
                  (IsReadable (Entry StreamBufferCountMode "Manual")) ;;
  if bad : bool then dret false else
  v <~ GetValue (Entry StreamBufferCountMode "Manual") ;;
  SetIntValue StreamBufferCountMode v ;;>
  GetNode StreamBufferCountManual ;;>
  bad <~ not_both (IsAvailable (Node StreamBufferCountManual))
                  (IsWritable (Node StreamBufferCountManual)) ;;
  if bad : bool then dret false else
  GetDisplayName (CurrentEntry StreamBufferHandlingMode) ;;>
  GetMax_int StreamBufferCountManual ;;>
  SetValue StreamBufferCountManual (VInt bufferSize) ;;>
  GetValue (Node StreamBufferCountManual) ;;>
  if String.eqb bufferMode "OldestFirst" then set_handling_mode "OldestFirst"
  else if String.eqb bufferMode "NewestFirst" then set_handling_mode "NewestFirst"
  else if String.eqb bufferMode "NewestOnly" then set_handling_mode "NewestOnly"
  else if String.eqb bufferMode "OldestFirstOverwrite"
       then set_handling_mode "OldestFirstOverwrite"
  else dret false.

(** [prepare_camera] over the six functions above.  A run of it carries the
    device, the log of SDK calls and the record of the steps called. *)
Definition prepare_camera (exposure_time : Z) (gain : Q) (trigger_type : string)
                          (bufferMode : string) (bufferSize : Z)
  : Preparation.P (camera * log) bool :=
  Preparation.prepare_camera (camera * log)
    configure_acquisition_mode configure_exposure configure_gain disable_gamma
    configure_trigger configure_buffer
    exposure_time gain trigger_type bufferMode bufferSize.

(** The keys of [cam_params] that [OpenCamera] reads besides ["n_cam"] and
    ["cameraName"]. *)
Record open_keys : Type := mkOpenKeys {
  cameraSelection : Z;
  exposure : Z;
  gain : Q
}.

(** The keys of [cam_params] that [OpenCamera] sets. *)
Record device_info : Type := mkInfo {
  cameraSerialNo : string;
  cameraModel : string;
  frameWidth : string;
  frameHeight : string
}.

(** [OpenCamera(cam_params, bufferSize)], lines 18 to 52 of [cam.py].  The
    value [prepare_camera] returns is dropped. *)
Definition OpenCamera (k : open_keys) (bufferSize : Z) : Dev device_info :=
  GetInstance ;;>
  GetCameras ;;>
  GetItem (cameraSelection k) ;;>
  DeInit ;;>
  Init ;;>
  (fun st =>
     match prepare_camera (exposure k) (gain k) "hardware" "OldestFirst" bufferSize
                          (st, []) with
     | ((st', _), Ok _) => (st', Ok tt)
     | ((st', _), Raise e) => (st', Raise e)
     end) ;;>
  m <~ GetAccessMode DeviceSerialNumber ;;
  serial <~ (if is_RO m then GetValue_str (Node DeviceSerialNumber) else dret ""%string) ;;
  readable <~ IsReadable (Node DeviceDisplayName) ;;
  model <~ (if readable : bool then ToString DeviceDisplayName else dret ""%string) ;;
  width <~ ToString Width ;;
  height <~ ToString Height ;;
  dret (mkInfo serial model width height).

(** A piece of code only adds to the log: run after the calls [l] it does
    what it does on an empty log, with [l] in front. *)
Definition framed {A : Type} (m : Dev A) : Prop :=
  forall cam l,
    m (cam, l) = (let out := m (cam, []) in
                  ((fst (fst out), l ++ snd (fst out)), snd out)).

(** The way of the five functions with a [try]: a [SpinnakerException] of
    an SDK call ends the function with [False]; what the function raises is
    what its last SDK call raised, and never a [SpinnakerException]. *)
Definition catches_spinnaker (m : Dev bool) : Prop :=
  forall cam,
    let out := m (cam, []) in
    let l := snd (fst out) in
    snd out <> Raise SpinnakerException /\
    (forall e, snd out = Raise e -> final_outcome l = Some (Raise e)) /\
    (final_outcome l = Some (Raise SpinnakerException) -> snd out = Ok false).

(** The way of a function without [try]: it raises exactly when its last SDK
    call raised, and the same exception. *)
Definition lets_errors_through {A : Type} (m : Dev A) : Prop :=
  forall cam e,
    let out := m (cam, []) in
    let l := snd (fst out) in
    snd out = Raise e <-> final_outcome l = Some (Raise e).

End Device.

(** A device on which every call succeeds: every node is available,
    readable, writable and [RW], every entry has the value 1 and every
    maximum is 100. *)
Definition ready : Sdk unit :=
  mkSdk unit
        (fun _ cam => (cam, Ok tt))
        (fun _ cam => (cam, Ok true))
        (fun _ cam => (cam, Ok RW))
        (fun _ cam => (cam, Ok 1))
        (fun _ cam => (cam, Ok 100%Q))
        (fun _ cam => (cam, Ok "FLIR"%string)).

(** A device that is busy: every call raises [SpinnakerException]. *)
Definition busy : Sdk unit :=
  mkSdk unit
        (fun _ cam => (cam, Raise SpinnakerException))
        (fun _ cam => (cam, Raise SpinnakerException))
        (fun _ cam => (cam, Raise SpinnakerException))
        (fun _ cam => (cam, Raise SpinnakerException))
        (fun _ cam => (cam, Raise SpinnakerException))
        (fun _ cam => (cam, Raise SpinnakerException)).

(** A device whose stream node map cannot be reached: asking for it raises
    [SpinnakerException]; every other call succeeds as on [ready]. *)
Definition no_stream : Sdk unit :=
  mkSdk unit
        (fun c cam =>
           match c with
           | Call.GetTLStreamNodeMap => (cam, Raise SpinnakerException)
           | _ => (cam, Ok tt)
           end)
        (ask_bool ready) (ask_mode ready) (ask_int ready) (ask_float ready)
        (ask_str ready).

End Spinnaker.

(** * Properties *)

(** ** What the Python operations raise *)

Lemma mod_raises a b e : Py.mod_ a b = Raise e -> e = ZeroDivisionError.
Proof. unfold Py.mod_. destruct (b =? 0); congruence. Qed.

Lemma truediv_raises a q e : Py.truediv a q = Raise e -> e = ZeroDivisionError.
Proof. unfold Py.truediv. destruct (Qeq_bool q 0); congruence. Qed.

Lemma mod_ratio_raises c r e :
  mod_ratio_is_zero c r = Raise e -> e = ZeroDivisionError.
Proof.
  destruct r as [|z]; simpl; [congruence|].
  destruct (Py.mod_ c z) eqn:E; [congruence|].
  intros [= <-]. eapply mod_raises; eauto.
Qed.

Lemma downsample_raises d img e : downsample d img = Raise e -> e = ValueError.
Proof.
  unfold downsample, Py.slice_step. destruct (d =? 0); congruence.
Qed.

(** ** One round of the loop *)

Lemma handle_Exception e s :
  is_Exception e = true ->
  exists evs, handle e s = Some (emit evs s) /\ forallb loop_event evs = true.
Proof.
  intros He. unfold handle.
  destruct (is_SpinnakerException e); [|rewrite He]; eexists; split; reflexivity.
Qed.

Lemma record_frame_spec img ts s t0 :
  first_grab ts s = Some t0 ->
  record_frame img ts s =
    (mkState (cnt s + 1) (Some t0)
             (grabdata_timeStamp s ++ [grabtime_of ts t0])
             (grabdata_frameNumber s ++ [cnt s + 1])
             (writeQueue s ++ [WFrame img]) (dispQueue s) (events s),
     Ok (cnt s + 1, grabtime_of ts t0)).
Proof.
  unfold first_grab, record_frame, bind, update, read, lift, ret. simpl.
  destruct (cnt s =? 0); simpl; intros H; [injection H as -> | rewrite H];
    unfold append_frameNumber, set_cnt, append_timeStamp, set_timeFirstGrab,
      append_writeQueue; simpl; rewrite ?H; reflexivity.
Qed.

Lemma show_result_raises p c img e :
  show_result p c img = Raise e -> e = ZeroDivisionError \/ e = ValueError.
Proof.
  unfold show_result.
  destruct (mod_ratio_is_zero c (frameRatio p)) as [[|]|e1] eqn:Hm.
  - destruct (downsample (displayDownsample p) img) as [small|e2] eqn:Hd;
      [discriminate|]. intros [= <-]. right. eapply downsample_raises; eauto.
  - discriminate.
  - intros [= <-]. left. eapply mod_ratio_raises; eauto.
Qed.

Lemma show_frame_spec p c img s :
  show_frame p c img s =
    (mkState (cnt s) (timeFirstGrab s) (grabdata_timeStamp s)
             (grabdata_frameNumber s) (writeQueue s)
             (dispQueue s ++ display_push p c img) (events s),
     show_result p c img).
Proof.
  unfold show_frame, show_result, display_push, bind, update, lift, ret.
  destruct (mod_ratio_is_zero c (frameRatio p)) as [[|]|e];
    [destruct (downsample (displayDownsample p) img) as [small|e]|..];
    rewrite ?app_nil_r; destruct s; reflexivity.
Qed.

Lemma report_outcome_raises p c g e :
  snd (report_outcome p c g) = Raise e -> e = ZeroDivisionError.
Proof.
  unfold report_outcome.
  destruct (Py.mod_ c (chunkLengthInFrames p)) as [m|e1] eqn:Hm; simpl.
  - destruct (m =? 0); [|discriminate].
    destruct (Py.truediv c g) as [q|e2] eqn:Hq; simpl; [discriminate|].
    intros [= <-]. eapply truediv_raises; eauto.
  - intros [= <-]. eapply mod_raises; eauto.
Qed.

Lemma report_outcome_events p c g :
  forallb loop_event (fst (report_outcome p c g)) = true.
Proof.
  unfold report_outcome.
  destruct (Py.mod_ c (chunkLengthInFrames p)) as [m|e1]; [|reflexivity].
  destruct (m =? 0); [|reflexivity].
  now destruct (Py.truediv c g).
Qed.

Lemma report_spec p c g s :
  report p c g s =
    (emit (fst (report_outcome p c g)) s, snd (report_outcome p c g)).
Proof.
  unfold report, report_outcome, bind, update, lift, ret, emit.
  destruct (Py.mod_ c (chunkLengthInFrames p)) as [m|e];
    [destruct (m =? 0); [destruct (Py.truediv c g) as [q|e]|]|];
    simpl; rewrite ?app_nil_r; destruct s; reflexivity.
Qed.

(** The state a round leaves whose [GetNextImage] returned, in full. *)
Lemma try_grab_ok_exact p img ts s t0 :
  first_grab ts s = Some t0 ->
  try_grab p (GrabOk img ts) s =
    (mkState (cnt s + 1) (Some t0)
             (grabdata_timeStamp s ++ [grabtime_of ts t0])
             (grabdata_frameNumber s ++ [cnt s + 1])
             (writeQueue s ++ [WFrame img])
             (dispQueue s ++ display_push p (cnt s + 1) img)
             (events s ++ EvGetNextImage true ::
                match show_result p (cnt s + 1) img with
                | Raise e => [EvLogError e]
                | Ok _ =>
                    EvRelease :: fst (report_outcome p (cnt s + 1) (grabtime_of ts t0)) ++
                    match snd (report_outcome p (cnt s + 1) (grabtime_of ts t0)) with
                    | Raise e => [EvLogError e]
                    | Ok _ => []
                    end
                end), None).
Proof.
  intros H0. unfold try_grab, grab_body, bind.
  rewrite (record_frame_spec img ts (emit [EvGetNextImage true] s) t0) by exact H0.
  simpl fst; simpl snd. rewrite show_frame_spec. cbn [cnt].
  destruct (show_result p (cnt s + 1) img) as [[]|e1] eqn:Hshow.
  - unfold update at 1. rewrite report_spec.
    pose proof (report_outcome_raises p (cnt s + 1) (grabtime_of ts t0)) as Hr.
    destruct (snd (report_outcome p (cnt s + 1) (grabtime_of ts t0))) as [[]|e2].
    + unfold emit; simpl. rewrite <- !app_assoc, app_nil_r. reflexivity.
    + rewrite (Hr e2 eq_refl). simpl. unfold emit; simpl.
      rewrite <- !app_assoc. reflexivity.
  - destruct (show_result_raises p _ _ _ Hshow); subst; simpl; unfold emit; simpl;
      rewrite <- !app_assoc; reflexivity.
Qed.

(** A round whose [GetNextImage] returns goes on to the next round with the
    frame recorded, whatever the display step and the report do. *)
Lemma try_grab_ok p img ts s t0 :
  first_grab ts s = Some t0 ->
  exists evs,
    try_grab p (GrabOk img ts) s =
      (mkState (cnt s + 1) (Some t0)
               (grabdata_timeStamp s ++ [grabtime_of ts t0])
               (grabdata_frameNumber s ++ [cnt s + 1])
               (writeQueue s ++ [WFrame img])
               (dispQueue s ++ display_push p (cnt s + 1) img)
               (events s ++ EvGetNextImage true :: evs), None) /\
    forallb loop_event evs = true.
Proof.
  intros H0. rewrite (try_grab_ok_exact p img ts s t0 H0).
  eexists; split; [reflexivity|].
  destruct (show_result p (cnt s + 1) img); [|reflexivity].
  simpl. rewrite forallb_app, report_outcome_events.
  now destruct (snd (report_outcome p (cnt s + 1) (grabtime_of ts t0))).
Qed.

Lemma try_grab_raise p e s :
  exists evs,
    fst (try_grab p (GrabRaise e) s) = emit (EvGetNextImage false :: evs) s /\
    forallb loop_event evs = true.
Proof.
  unfold try_grab, handle.
  destruct (is_SpinnakerException e); [|destruct (is_Exception e)]; simpl.
  - exists [EvPrintError e; EvSleep (1 # 10000)]. split; [|reflexivity].
    unfold emit; simpl. rewrite <- app_assoc. reflexivity.
  - exists [EvLogError e]. split; [|reflexivity].
    unfold emit; simpl. rewrite <- app_assoc. reflexivity.
  - exists []. split; reflexivity.
Qed.

Lemma bound_first_grab ts s : bound s -> exists t0, first_grab ts s = Some t0.
Proof.
  unfold bound, first_grab. intros H.
  destruct (Z.eqb_spec (cnt s) 0) as [E|E]; [eauto|].
  destruct (timeFirstGrab s) as [t|]; [eauto|]. now destruct (H E).
Qed.

(** The two ways a round of the [try] leaves the state. *)
Lemma try_grab_state p g s :
  bound s ->
  (exists e evs,
      g = GrabRaise e /\
      fst (try_grab p g s) = emit (EvGetNextImage false :: evs) s /\
      forallb loop_event evs = true) \/
  (exists img ts t0 evs,
      g = GrabOk img ts /\
      first_grab ts s = Some t0 /\
      try_grab p g s =
        (mkState (cnt s + 1) (Some t0)
                 (grabdata_timeStamp s ++ [grabtime_of ts t0])
                 (grabdata_frameNumber s ++ [cnt s + 1])
                 (writeQueue s ++ [WFrame img])
                 (dispQueue s ++ display_push p (cnt s + 1) img)
                 (events s ++ EvGetNextImage true :: evs), None) /\
      forallb loop_event evs = true).
Proof.
  intros Hb. destruct g as [img ts|e].
  - right. destruct (bound_first_grab ts s Hb) as (t0 & H0).
    destruct (try_grab_ok p img ts s t0 H0) as (evs & H & Hevs).
    exists img, ts, t0, evs. auto.
  - left. destruct (try_grab_raise p e s) as (evs & H & Hevs). eauto 6.
Qed.

(** ** Counting events *)

Section Counting.

Variables (f g : event -> bool).
Hypothesis disjoint : forall e, g e = true -> f e = false.

Lemma filter_none evs : forallb g evs = true -> filter f evs = [].
Proof.
  induction evs as [|e evs IH]; simpl; [reflexivity|].
  intros H. apply andb_prop in H as [He Hevs].
  rewrite (disjoint e He). auto.
Qed.

End Counting.

Lemma grab_attempts_app a b :
  grab_attempts (a ++ b) = (grab_attempts a + grab_attempts b)%nat.
Proof. unfold grab_attempts. now rewrite filter_app, length_app. Qed.

Lemma successful_grabs_app a b :
  successful_grabs (a ++ b) = (successful_grabs a + successful_grabs b)%nat.
Proof. unfold successful_grabs. now rewrite filter_app, length_app. Qed.

Lemma closings_app a b : closings (a ++ b) = (closings a + closings b)%nat.
Proof. unfold closings. now rewrite filter_app, length_app. Qed.

Lemma saved_app a b : saved (a ++ b) = saved a ++ saved b.
Proof. unfold saved. now rewrite flat_map_app. Qed.

Lemma loop_events_no_grab evs :
  forallb loop_event evs = true ->
  grab_attempts evs = 0%nat /\ successful_grabs evs = 0%nat.
Proof.
  intros H. unfold grab_attempts, successful_grabs.
  rewrite !(filter_none _ loop_event) by (assumption || now intros [| | [|] | | | | | | | | | ]).
  auto.
Qed.

Lemma loop_events_no_close evs :
  forallb loop_event evs = true -> closings evs = 0%nat /\ saved evs = [].
Proof.
  intros H. unfold closings. 
  rewrite (filter_none _ loop_event) by (assumption || now intros []).
  split; [reflexivity|].
  induction evs as [|e evs IH]; [reflexivity|].
  simpl in H. apply andb_prop in H as [He Hevs].
  simpl. rewrite (IH Hevs). now destruct e.
Qed.

Lemma close_events_no_grab evs :
  forallb close_event evs = true ->
  grab_attempts evs = 0%nat /\ successful_grabs evs = 0%nat.
Proof.
  intros H. unfold grab_attempts, successful_grabs.
  rewrite !(filter_none _ close_event) by (assumption || now intros [| | [|] | | | | | | | | | ]).
  auto.
Qed.

(** ** [CloseCamera] *)

Lemma close_try_events fn tm r :
  exists rest,
    fst (close_try fn tm r) = EvSaveMetadata fn tm :: rest /\
    forallb close_event rest = true /\
    closings rest = 0%nat /\ saved rest = [].
Proof.
  unfold close_try.
  destruct (r_SaveMetadata r); [destruct (r_sleep_1 r); [destruct (r_Close r);
    [destruct (r_StopGrabbing r)|]|]|]; simpl; eexists; repeat split.
Qed.

Lemma close_loop_events fn tm rounds :
  let o := close_loop fn tm rounds in
  forallb close_event (close_events o) = true /\
  closings (close_events o) = 0%nat /\
  Forall (eq (fn, tm)) (saved (close_events o)) /\
  (close_returned o = true -> saved (close_events o) <> []).
Proof.
  induction rounds as [|r rounds IH]; simpl.
  - repeat split; [constructor | discriminate].
  - destruct (close_try_events fn tm r) as (rest & Hevs & Hc & Hn & Hs).
    destruct (close_try fn tm r) as (evs, res). simpl in Hevs. subst evs.
    destruct res as [[]|e].
    + simpl. rewrite Hc, Hs. unfold closings in *. simpl. rewrite Hn.
      repeat split; [repeat constructor | discriminate].
    + assert (Hone : forall evs',
                forallb close_event evs' = true ->
                closings evs' = 0%nat ->
                Forall (eq (fn, tm)) (saved evs') ->
                let evs := (EvSaveMetadata fn tm :: rest) ++ EvSleep (1 # 10) :: evs' in
                forallb close_event evs = true /\ closings evs = 0%nat /\
                Forall (eq (fn, tm)) (saved evs) /\ saved evs <> []).
      { intros evs' H1 H2 H3. cbv zeta. rewrite forallb_app, closings_app, saved_app.
        simpl. rewrite Hc, H1, Hs. unfold closings in *. simpl. rewrite Hn, H2.
        repeat split; [constructor; auto | discriminate]. }
      destruct (r_sleep_backoff r) as [[]|[]].
      2-8: destruct (Hone [] eq_refl eq_refl (Forall_nil _)) as (A & B & C & D);
           simpl; repeat split; auto.
      destruct IH as (A & B & C & D).
      destruct (close_loop fn tm rounds) as [evs'|evs'|e' evs'|evs']; simpl in *;
        destruct (Hone evs' A B C) as (A' & B' & C' & D'); repeat split; auto.
Qed.

Lemma CloseCamera_events p fn tm rounds :
  let o := CloseCamera p fn tm rounds in
  forallb close_event (close_events o) = true /\
  closings (close_events o) = 1%nat /\
  Forall (eq (fn, tm)) (saved (close_events o)) /\
  (close_returned o = true -> saved (close_events o) <> []).
Proof.
  unfold CloseCamera.
  destruct (close_loop_events fn tm rounds) as (A & B & C & D).
  destruct (close_loop fn tm rounds) as [evs|evs|e evs|evs]; simpl in *;
    unfold closings in *; simpl; rewrite ?A, ?B; auto.
Qed.

(** ** The loop as a whole *)

(** Where finalization leaves the state: the events of [CloseCamera] are
    added, and ['STOP'] when [CloseCamera] returned. *)
Lemma finalize_state p rounds s :
  let o := CloseCamera p (grabdata_frameNumber s) (grabdata_timeStamp s) rounds in
  final_state (finalize p rounds s) =
    if close_returned o
    then append_writeQueue WStop (emit (close_events o) s)
    else emit (close_events o) s.
Proof.
  unfold finalize. cbv zeta.
  now destruct (CloseCamera p (grabdata_frameNumber s) (grabdata_timeStamp s) rounds).
Qed.

Lemma finalize_Finalized p rounds s s' :
  finalize p rounds s = Finalized s' ->
  let o := CloseCamera p (grabdata_frameNumber s) (grabdata_timeStamp s) rounds in
  close_returned o = true /\ s' = append_writeQueue WStop (emit (close_events o) s).
Proof.
  unfold finalize. cbv zeta.
  destruct (CloseCamera p (grabdata_frameNumber s) (grabdata_timeStamp s) rounds);
    intros [=]; subst; auto.
Qed.

(** However a run stands, it got there through rounds of the [try] and at
    most one finalization: a property that every round of the [try]
    preserves holds of the state the loop was left in, or finalized from. *)
Lemma grab_loop_ends p rounds (I : state -> Prop) :
  (forall g s, I s -> I (fst (try_grab p g s))) ->
  forall script s, I s ->
  exists s', I s' /\
    (grab_loop p rounds script s = Grabbing s' \/
     grab_loop p rounds script s = StreamEnded s' \/
     (exists e, grab_loop p rounds script s = Uncaught e s') \/
     grab_loop p rounds script s = finalize p rounds s').
Proof.
  intros Hstep. induction script as [|t rest IH]; intros s Hs; simpl.
  - eauto.
  - destruct (negb (IsStreaming t)); [eauto|].
    destruct (stop_check p t s); [eauto 6|].
    specialize (Hstep (GetNextImage t) s Hs).
    destruct (try_grab p (GetNextImage t) s) as (s1, [e|]); simpl in Hstep; eauto 7.
Qed.

(** ** The bookkeeping invariant *)

Lemma numbers_1_to_succ n :
  numbers_1_to (S n) = numbers_1_to n ++ [Z.of_nat n + 1].
Proof.
  unfold numbers_1_to. replace (S n) with (n + 1)%nat by lia.
  rewrite seq_app, map_app. simpl. do 2 f_equal. lia.
Qed.

Lemma frames_app a b : frames (a ++ b) = frames a ++ frames b.
Proof. unfold frames. now rewrite flat_map_app. Qed.

Lemma session_inv_initial p : session_inv (initial_state p).
Proof. repeat split. intros H. now destruct H. Qed.

Lemma session_inv_step p g s :
  session_inv s -> session_inv (fst (try_grab p g s)).
Proof.
  intros (Hc & Hf & Ht & Hw & Hb).
  destruct (try_grab_state p g s Hb)
    as [(e & evs & _ & -> & Hevs) | (img & ts & t0 & evs & _ & _ & -> & Hevs)];
    destruct (loop_events_no_grab evs Hevs) as (_ & Hz);
    unfold session_inv; simpl.
  - change (EvGetNextImage false :: evs) with ([EvGetNextImage false] ++ evs).
    rewrite !successful_grabs_app, Hz. simpl. rewrite !Nat.add_0_r. auto.
  - change (EvGetNextImage true :: evs) with ([EvGetNextImage true] ++ evs).
    rewrite !successful_grabs_app, Hz. simpl.
    replace (successful_grabs (events s) + 1)%nat
      with (S (successful_grabs (events s))) by lia.
    rewrite numbers_1_to_succ, frames_app, !length_app, Hf, Ht, Hw, Hc. simpl.
    repeat split; try lia. intros _. discriminate.
Qed.

Lemma session_inv_emit_close evs s :
  forallb close_event evs = true -> session_inv s -> session_inv (emit evs s).
Proof.
  intros Hevs (Hc & Hf & Ht & Hw & Hb).
  destruct (close_events_no_grab evs Hevs) as (_ & Hz).
  unfold session_inv; simpl. rewrite successful_grabs_app, Hz, Nat.add_0_r. auto.
Qed.

Lemma session_inv_stop s :
  session_inv s -> session_inv (append_writeQueue WStop s).
Proof.
  intros (Hc & Hf & Ht & Hw & Hb). unfold session_inv; simpl.
  rewrite frames_app. simpl. rewrite app_nil_r. auto.
Qed.

Lemma session_inv_finalize p rounds s :
  session_inv s -> session_inv (final_state (finalize p rounds s)).
Proof.
  intros Hs. rewrite finalize_state.
  destruct (CloseCamera_events p (grabdata_frameNumber s) (grabdata_timeStamp s) rounds)
    as (Hevs & _).
  destruct (close_returned _);
    [apply session_inv_stop|]; now apply session_inv_emit_close.
Qed.

Lemma session_inv_loop p rounds script s :
  session_inv s -> session_inv (final_state (grab_loop p rounds script s)).
Proof.
  intros Hs.
  destruct (grab_loop_ends p rounds session_inv (session_inv_step p) script s Hs)
    as (s' & Hs' & [-> | [-> | [(e & ->) | ->]]]); simpl; auto.
  now apply session_inv_finalize.
Qed.

(** C2.  However a session goes, the frame numbers it has recorded are
    exactly [1, 2, ..., N], without gap or repeat, where [N] is the number of
    grab results [GetNextImage] returned; the session holds as many
    timestamps and write-queue payloads. *)
Theorem frame_numbers_contiguous p rounds script :
  let s := final_state (GrabFrames p rounds script) in
  let N := successful_grabs (events s) in
  grabdata_frameNumber s = numbers_1_to N /\
  NoDup (grabdata_frameNumber s) /\
  List.length (grabdata_timeStamp s) = N /\
  List.length (frames (writeQueue s)) = N.
Proof.
  cbv zeta.
  destruct (session_inv_loop p rounds script (initial_state p) (session_inv_initial p))
    as (_ & Hf & Ht & Hw & _).
  fold (GrabFrames p rounds script) in *.
  repeat split; auto.
  rewrite Hf. unfold numbers_1_to.
  apply Injective_map_NoDup; [intros a b; lia | apply seq_NoDup].
Qed.

(** ** Finalization *)

Lemma not_finalized_step p g s :
  bound s -> not_finalized s -> not_finalized (fst (try_grab p g s)).
Proof.
  intros Hb (Hc & Hs & Hw).
  destruct (try_grab_state p g s Hb)
    as [(e & evs & _ & -> & Hevs) | (img & ts & t0 & evs & _ & _ & -> & Hevs)];
    destruct (loop_events_no_close evs Hevs) as (Hz & Hn);
    unfold not_finalized; simpl.
  - change (EvGetNextImage false :: evs) with ([EvGetNextImage false] ++ evs).
    rewrite !closings_app, !saved_app, Hz, Hn, Hc, Hs. auto.
  - change (EvGetNextImage true :: evs) with ([EvGetNextImage true] ++ evs).
    rewrite !closings_app, !saved_app, Hz, Hn, Hc, Hs, frames_app, map_app, <- Hw. auto.
Qed.

(** C1, as the code has it.  When the loop ends through its stop check (the
    stop queue is not empty, or the counter has reached the target) and
    [CloseCamera] returns, finalization has run exactly once: [CloseCamera]
    was entered once, every call of [SaveMetadata] was given the records the
    session accumulated, and the write queue holds the frame payloads
    followed by one ['STOP']. *)
Theorem finalization_on_stop_check p rounds script s :
  GrabFrames p rounds script = Finalized s -> finalized_once s.
Proof.
  unfold GrabFrames. intros H.
  destruct (grab_loop_ends p rounds (fun s => session_inv s /\ not_finalized s))
    with (script := script) (s := initial_state p)
    as (s' & (Hi & Hn) & Hend).
  - intros g s0 (Hi & Hn). split; [now apply session_inv_step|].
    apply not_finalized_step; [apply Hi | exact Hn].
  - split; [apply session_inv_initial | repeat split].
  - rewrite H in Hend.
    destruct Hend as [Hend | [Hend | [(e & Hend) | Hend]]]; try discriminate.
    symmetry in Hend. apply finalize_Finalized in Hend as (Hret & ->).
    destruct (CloseCamera_events p (grabdata_frameNumber s') (grabdata_timeStamp s') rounds)
      as (_ & Hc & Hs & Hne).
    destruct Hn as (Hc0 & Hs0 & Hw).
    unfold finalized_once; simpl.
    rewrite closings_app, saved_app, Hc0, Hs0, frames_app; simpl.
    rewrite app_nil_r, <- Hw. auto.
Qed.

(** C1 at a sample session: two frames, and the stop queue is set. *)
Lemma finalization_on_stop_check_witness :
  GrabFrames Sample.params [Sample.close_ok]
             Sample.two_frames
    = Finalized (final_state
                   (GrabFrames Sample.params [Sample.close_ok]
                      Sample.two_frames))
  /\ finalized_once
       (final_state
          (GrabFrames Sample.params [Sample.close_ok]
             Sample.two_frames)).
Proof.
  split.
  - vm_compute. reflexivity.
  - apply (finalization_on_stop_check Sample.params [Sample.close_ok]
             Sample.two_frames).
    vm_compute. reflexivity.
Defined.

(** C1 as stated fails when the camera stops streaming: after two frames
    the [while] condition turns false and [GrabFrames] falls off its end;
    [CloseCamera] is never entered, the two records are not handed to
    [SaveMetadata], and the write queue ends without ['STOP']. *)
Lemma no_finalization_when_streaming_ends :
  ~ finalizes_on_every_exit Sample.params [Sample.close_ok]
      [Sample.frame_at 0; Sample.frame_at 33333333; Sample.stream_over].
Proof.
  intros H.
  specialize (H _ eq_refl) as (Hc & _).
  vm_compute in Hc. discriminate.
Qed.

(** ** Timestamps *)

Lemma grabtime_of_first t : (grabtime_of t t == 0)%Q.
Proof. unfold grabtime_of, Qeq. simpl. lia. Qed.

Lemma grabtime_of_mono t0 a b : a <= b -> (grabtime_of a t0 <= grabtime_of b t0)%Q.
Proof. intros H. unfold grabtime_of, Qle. simpl. lia. Qed.

Lemma firstn_length_firstn {A : Type} (k : nat) (l : list A) :
  firstn (List.length (firstn k l)) l = firstn k l.
Proof.
  revert l. induction k as [|k IH]; intros [|x l]; simpl; auto. now rewrite IH.
Qed.

Lemma Forall_firstn_keeps {A : Type} (P : A -> Prop) (k : nat) (l : list A) :
  Forall P l -> Forall P (firstn k l).
Proof.
  intros H. revert k. induction H as [|x l Hx Hl IH]; intros [|k]; simpl;
    constructor; auto.
Qed.

Lemma StronglySorted_firstn {A : Type} (R : A -> A -> Prop) (k : nat) (l : list A) :
  StronglySorted R l -> StronglySorted R (firstn k l).
Proof.
  intros H. revert k. induction H as [|x l Hl IH Hx]; intros [|k]; simpl;
    try constructor; auto.
  now apply Forall_firstn_keeps.
Qed.

Lemma relative_to_sorted t1 l :
  StronglySorted Z.le l -> StronglySorted Qle (relative_to t1 l).
Proof.
  induction 1 as [|x l Hl IH Hx]; simpl; constructor; auto.
  unfold relative_to. rewrite Forall_map. eapply Forall_impl; [|exact Hx].
  intros y Hy. now apply grabtime_of_mono.
Qed.

Lemma stamped_stay pre s :
  stamped pre s ->
  forall l, grabdata_timeStamp s = relative_to (hd 0 (pre ++ l)) pre.
Proof.
  intros (Ht & _) l. rewrite Ht. destruct pre; reflexivity.
Qed.

Lemma stamped_loop p rounds script :
  forall pre s,
    session_inv s -> stamped pre s ->
    let s' := final_state (grab_loop p rounds script s) in
    exists k,
      grabdata_timeStamp s' =
        relative_to (hd 0 (pre ++ hw_timestamps script))
                    (pre ++ firstn k (hw_timestamps script)) /\
      List.length (pre ++ firstn k (hw_timestamps script))
        = successful_grabs (events s').
Proof.
  induction script as [|t rest IH]; intros pre s Hi Hst;
    pose proof (stamped_stay pre s Hst) as Hstay;
    destruct Hst as (Ht & Hf & Hl); cbv zeta.
  - exists 0%nat. simpl. rewrite app_nil_r. split; [exact Ht | exact Hl].
  - simpl grab_loop.
    destruct (negb (IsStreaming t)).
    { exists 0%nat. simpl. rewrite app_nil_r. split; [apply Hstay | exact Hl]. }
    destruct (stop_check p t s).
    { exists 0%nat. rewrite finalize_state.
      destruct (CloseCamera_events p (grabdata_frameNumber s) (grabdata_timeStamp s) rounds)
        as (Hevs & _).
      destruct (close_events_no_grab _ Hevs) as (_ & Hz).
      destruct (close_returned _); simpl;
        rewrite app_nil_r, successful_grabs_app, Hz, Nat.add_0_r;
        (split; [apply Hstay | exact Hl]). }
    pose proof (session_inv_step p (GetNextImage t) s Hi) as Hi1.
    destruct Hi as (Hc & _ & _ & _ & Hb).
    destruct (try_grab_state p (GetNextImage t) s Hb)
      as [(e & evs & Hg & Hs1 & Hevs) | (img & ts & t0 & evs & Hg & H0 & Hs1 & Hevs)];
      destruct (loop_events_no_grab evs Hevs) as (_ & Hz).
    + assert (Hhw : hw_timestamps (t :: rest) = hw_timestamps rest)
        by (unfold hw_timestamps; simpl; now rewrite Hg).
      rewrite Hhw.
      assert (Hst : stamped pre (fst (try_grab p (GetNextImage t) s))).
      { rewrite Hs1. repeat split; simpl; auto.
        change (EvGetNextImage false :: evs) with ([EvGetNextImage false] ++ evs).
        rewrite !successful_grabs_app, Hz. simpl. lia. }
      destruct (try_grab p (GetNextImage t) s) as (s1, [e'|]); simpl in *.
      * exists 0%nat. simpl. rewrite app_nil_r. destruct Hst as (A & _ & C).
        split; [|exact C]. rewrite A. destruct pre; reflexivity.
      * apply IH; assumption.
    + assert (Hhw : hw_timestamps (t :: rest) = ts :: hw_timestamps rest)
        by (unfold hw_timestamps; simpl; now rewrite Hg).
      rewrite Hhw. rewrite Hg, Hs1 in *. simpl in Hi1.
      assert (Ht0 : t0 = hd 0 (pre ++ [ts])).
      { unfold first_grab in H0. destruct pre as [|x pre]; simpl in *.
        - rewrite <- Hl in Hc. rewrite Hc in H0. simpl in H0. congruence.
        - destruct (Z.eqb_spec (cnt s) 0) as [E|E]; [lia|].
          rewrite Hf in H0 by discriminate. congruence. }
      destruct (IH (pre ++ [ts])
                  (mkState (cnt s + 1) (Some t0)
                     (grabdata_timeStamp s ++ [grabtime_of ts t0])
                     (grabdata_frameNumber s ++ [cnt s + 1])
                     (writeQueue s ++ [WFrame img])
                     (dispQueue s ++ display_push p (cnt s + 1) img)
                     (events s ++ EvGetNextImage true :: evs)) Hi1) as (k & A & B).
      { repeat split; simpl.
        - rewrite Ht. unfold relative_to. rewrite map_app. simpl.
          rewrite Ht0. destruct pre; reflexivity.
        - intros _. now rewrite Ht0.
        - change (EvGetNextImage true :: evs) with ([EvGetNextImage true] ++ evs).
          rewrite !successful_grabs_app, Hz, length_app. simpl. lia. }
      exists (S k). cbv zeta in A, B.
      repeat rewrite <- app_assoc in A. repeat rewrite <- app_assoc in B.
      cbn [app] in A, B. cbn [firstn]. split; assumption.
Qed.

(** C5.  The timestamps a session has recorded are those of the grab
    results it obtained, each as the hardware timestamp minus the first
    frame's, over [10^9]; so the first one is zero, and they do not decrease
    when the hardware timestamps do not. *)
Theorem timestamps_relative_nondecreasing p rounds script :
  Sorted Z.le (hw_timestamps script) ->
  let s := final_state (GrabFrames p rounds script) in
  grabdata_timeStamp s =
    relative_to (hd 0 (hw_timestamps script))
                (firstn (successful_grabs (events s)) (hw_timestamps script)) /\
  Sorted Qle (grabdata_timeStamp s) /\
  (forall t, hd_error (grabdata_timeStamp s) = Some t -> (t == 0)%Q).
Proof.
  intros Hsorted. cbv zeta.
  destruct (stamped_loop p rounds script [] (initial_state p)) as (k & Hk & Hn).
  { apply session_inv_initial. }
  { repeat split. intros H. now destruct H. }
  fold (GrabFrames p rounds script) in *. simpl in Hk, Hn.
  rewrite <- Hn, firstn_length_firstn.
  split; [exact Hk|]. rewrite Hk. split.
  - apply StronglySorted_Sorted, relative_to_sorted, StronglySorted_firstn.
    apply Sorted_StronglySorted; [exact Z.le_trans | exact Hsorted].
  - destruct (hw_timestamps script) as [|t1 l]; destruct k; simpl; try discriminate.
    intros t [= <-]. apply grabtime_of_first.
Qed.

(** C5 at a sample session: three frames 33_333_333 ns apart, the last one
    arriving with the stop signal. *)
Lemma timestamps_relative_nondecreasing_witness :
  Sorted Z.le (hw_timestamps Sample.two_frames) /\
  (let s := final_state (GrabFrames Sample.params [Sample.close_ok] Sample.two_frames) in
   grabdata_timeStamp s =
     relative_to (hd 0 (hw_timestamps Sample.two_frames))
                 (firstn (successful_grabs (events s))
                         (hw_timestamps Sample.two_frames)) /\
   Sorted Qle (grabdata_timeStamp s) /\
   (forall t, hd_error (grabdata_timeStamp s) = Some t -> (t == 0)%Q)).
Proof.
  assert (H : Sorted Z.le (hw_timestamps Sample.two_frames)).
  { vm_compute hw_timestamps. repeat constructor; lia. }
  split; [exact H|].
  exact (timestamps_relative_nondecreasing Sample.params [Sample.close_ok]
           Sample.two_frames H).
Defined.

(** ** Retrying and stopping *)

Lemma grab_loop_app p rounds a b s s1 :
  grab_loop p rounds a s = Grabbing s1 ->
  grab_loop p rounds (a ++ b) s = grab_loop p rounds b s1.
Proof.
  revert s. induction a as [|t a IH]; intros s; simpl.
  - now intros [= ->].
  - destruct (negb (IsStreaming t)); [discriminate|].
    destruct (stop_check p t s).
    + unfold finalize. now destruct (CloseCamera _ _ _ _).
    + destruct (try_grab p (GetNextImage t) s) as (s', [e|]); [discriminate | apply IH].
Qed.

(** A round in which [GetNextImage] raises [SpinnakerException]. *)
Lemma grab_loop_not_yet p rounds t rest s :
  IsStreaming t = true -> stop_check p t s = false ->
  GetNextImage t = GrabRaise SpinnakerException ->
  grab_loop p rounds (t :: rest) s =
    grab_loop p rounds rest
      (emit [EvGetNextImage false; EvPrintError SpinnakerException; EvSleep (1 # 10000)] s).
Proof.
  intros Hs Hc Hg. simpl. rewrite Hs, Hc, Hg. simpl.
  unfold emit; simpl. rewrite <- app_assoc. reflexivity.
Qed.

(** A round in which [GetNextImage] returns. *)
Lemma grab_loop_frame p rounds t rest s img ts :
  IsStreaming t = true -> stop_check p t s = false ->
  GetNextImage t = GrabOk img ts -> bound s ->
  exists s',
    grab_loop p rounds (t :: rest) s = grab_loop p rounds rest s' /\
    cnt s' = cnt s + 1 /\
    grabdata_frameNumber s' = grabdata_frameNumber s ++ [cnt s + 1] /\
    (exists tm, grabdata_timeStamp s' = grabdata_timeStamp s ++ [tm]) /\
    writeQueue s' = writeQueue s ++ [WFrame img].
Proof.
  intros Hs Hc Hg Hb. cbn [grab_loop]. rewrite Hs, Hc, Hg. cbn [negb].
  destruct (bound_first_grab ts s Hb) as (t0 & H0).
  destruct (try_grab_ok p img ts s t0 H0) as (evs & -> & _).
  eexists; split; [reflexivity|]. simpl. eauto.
Qed.

(** C6.  A round in which the frame is not yet available
    ([GetNextImage] raises [SpinnakerException]) leaves the counter, the
    records and both queues as they were, prints the error, sleeps for
    0.0001 s (less than a millisecond) and goes on to the next round.  Three
    such rounds and then a frame append exactly one record, raise the
    counter by one, and the loop goes on with the rest of the script. *)
Theorem not_yet_available_retries p rounds t rest0 t2 t3 t4 rest s img ts :
  IsStreaming t = true -> stopQueue t = false ->
  IsStreaming t2 = true -> stopQueue t2 = false ->
  IsStreaming t3 = true -> stopQueue t3 = false ->
  IsStreaming t4 = true -> stopQueue t4 = false ->
  Qle_bool (numImagesToGrab p) (inject_Z (cnt s)) = false ->
  GetNextImage t = GrabRaise SpinnakerException ->
  GetNextImage t2 = GrabRaise SpinnakerException ->
  GetNextImage t3 = GrabRaise SpinnakerException ->
  GetNextImage t4 = GrabOk img ts ->
  bound s ->
  (let s' := emit [EvGetNextImage false; EvPrintError SpinnakerException;
                   EvSleep (1 # 10000)] s in
   grab_loop p rounds (t :: rest0) s = grab_loop p rounds rest0 s' /\
   cnt s' = cnt s /\ timeFirstGrab s' = timeFirstGrab s /\
   grabdata_frameNumber s' = grabdata_frameNumber s /\
   grabdata_timeStamp s' = grabdata_timeStamp s /\
   writeQueue s' = writeQueue s /\ dispQueue s' = dispQueue s /\
   (1 # 10000 < 1 # 1000)%Q) /\
  (exists s',
     grab_loop p rounds (t :: t2 :: t3 :: t4 :: rest) s = grab_loop p rounds rest s' /\
     cnt s' = cnt s + 1 /\
     grabdata_frameNumber s' = grabdata_frameNumber s ++ [cnt s + 1] /\
     (exists tm, grabdata_timeStamp s' = grabdata_timeStamp s ++ [tm]) /\
     writeQueue s' = writeQueue s ++ [WFrame img]).
Proof.
  intros S1 Q1 S2 Q2 S3 Q3 S4 Q4 Hc G1 G2 G3 G4 Hb.
  assert (Hstop : forall u evs, stopQueue u = false ->
                                stop_check p u (emit evs s) = false).
  { intros u evs Hu. unfold stop_check. simpl. now rewrite Hu, Hc. }
  pose proof (Hstop t [] Q1) as C1. 
  replace (emit [] s) with s in C1 by (unfold emit; rewrite app_nil_r; now destruct s).
  split.
  - cbv zeta. split; [now apply grab_loop_not_yet|]. repeat split.
  - rewrite (grab_loop_not_yet p rounds t _ s S1 C1 G1).
    rewrite (grab_loop_not_yet p rounds t2 _ _ S2 (Hstop t2 _ Q2) G2).
    rewrite (grab_loop_not_yet p rounds t3) by (auto; apply Hstop; auto).
    match goal with |- context [grab_loop p rounds (t4 :: rest) ?s3] =>
      destruct (grab_loop_frame p rounds t4 rest s3 img ts) as (s' & E & A & B & C & D)
    end; auto.
    { unfold stop_check. simpl. now rewrite Q4, Hc. }
    exists s'. simpl in *. auto.
Qed.

(** C6 at a sample session: three rounds without a frame, then a frame. *)
Lemma not_yet_available_retries_witness :
  exists s',
    GrabFrames Sample.params []
      [Sample.not_yet; Sample.not_yet; Sample.not_yet; Sample.frame_at 0] = Grabbing s' /\
    cnt s' = 1 /\ grabdata_frameNumber s' = [1] /\
    (exists tm, grabdata_timeStamp s' = [tm]).
Proof.
  destruct (not_yet_available_retries Sample.params [] Sample.not_yet []
              Sample.not_yet Sample.not_yet (Sample.frame_at 0) []
              (initial_state Sample.params) Sample.img 0)
    as (_ & s' & E & A & B & C & _);
    try reflexivity; [intros H; now destruct H|].
  exists s'. unfold GrabFrames. rewrite E. auto.
Defined.

(** Finalization calls [GetNextImage] no more. *)
Lemma finalize_no_grab p rounds s :
  grab_attempts (events (final_state (finalize p rounds s))) = grab_attempts (events s).
Proof.
  rewrite finalize_state.
  destruct (CloseCamera_events p (grabdata_frameNumber s) (grabdata_timeStamp s) rounds)
    as (Hevs & _).
  destruct (close_events_no_grab _ Hevs) as (Hz & _).
  destruct (close_returned _); simpl; rewrite grab_attempts_app, Hz; lia.
Qed.

(** C7.  The target is the recording time times the frame rate.  In a round
    where the stop queue is set or the counter has reached the target, the
    loop finalizes instead of grabbing, whatever frame is waiting.  At 30
    frames per second for 10 seconds the target is 300: fed 300 frames the
    loop records 300 of them and, in the round after, finalizes without a
    301st call of [GetNextImage]. *)
Theorem stop_check_before_grab p rounds t rest s t' more :
  IsStreaming t = true ->
  stopQueue t = true \/ (numImagesToGrab p <= inject_Z (cnt s))%Q ->
  IsStreaming t' = true ->
  numImagesToGrab p = (recTimeInSec p * inject_Z (frameRate p))%Q /\
  grab_loop p rounds (t :: rest) s = finalize p rounds s /\
  grab_attempts (events (final_state (grab_loop p rounds (t :: rest) s)))
    = grab_attempts (events s) /\
  (numImagesToGrab Sample.params == 300)%Q /\
  exists s',
    GrabFrames Sample.params [Sample.close_ok] (Sample.feed 300 0 ++ t' :: more)
      = Finalized s' /\
    grabdata_frameNumber s' = numbers_1_to 300 /\
    List.length (grabdata_timeStamp s') = 300%nat /\
    successful_grabs (events s') = 300%nat /\
    grab_attempts (events s') = 300%nat.
Proof.
  intros Hs Hstop Hs'.
  assert (Hloop : grab_loop p rounds (t :: rest) s = finalize p rounds s).
  { simpl. rewrite Hs. simpl.
    replace (stop_check p t s) with true; [reflexivity|].
    unfold stop_check. destruct Hstop as [-> | H]; [reflexivity|].
    apply Qle_bool_iff in H. rewrite H. now rewrite orb_true_r. }
  split; [reflexivity|]. split; [exact Hloop|].
  split; [rewrite Hloop; apply finalize_no_grab|].
  split; [reflexivity|].
  set (s300 := final_state (grab_loop Sample.params [Sample.close_ok]
                              (Sample.feed 300 0) (initial_state Sample.params))).
  assert (H300 : grab_loop Sample.params [Sample.close_ok] (Sample.feed 300 0)
                   (initial_state Sample.params) = Grabbing s300)
    by (vm_compute; reflexivity).
  assert (Hfull : Qle_bool (numImagesToGrab Sample.params) (inject_Z (cnt s300)) = true)
    by (vm_compute; reflexivity).
  assert (Hfin : finalize Sample.params [Sample.close_ok] s300
                 = Finalized (final_state (finalize Sample.params [Sample.close_ok] s300)))
    by (vm_compute; reflexivity).
  exists (final_state (finalize Sample.params [Sample.close_ok] s300)).
  split.
  - unfold GrabFrames. rewrite (grab_loop_app _ _ _ _ _ _ H300).
    cbn [grab_loop]. rewrite Hs'. cbn [negb].
    unfold stop_check. rewrite Hfull, orb_true_r. exact Hfin.
  - vm_compute. repeat split.
Qed.

(** C7 at a sample session: the stop queue is set while a frame waits. *)
Lemma stop_check_before_grab_witness :
  grab_loop Sample.params [Sample.close_ok] [Sample.stop_at 0]
            (initial_state Sample.params)
    = finalize Sample.params [Sample.close_ok] (initial_state Sample.params) /\
  exists s',
    GrabFrames Sample.params [Sample.close_ok]
               (Sample.feed 300 0 ++ [Sample.frame_at 9999999900])
      = Finalized s' /\
    grab_attempts (events s') = 300%nat.
Proof.
  destruct (stop_check_before_grab Sample.params [Sample.close_ok] (Sample.stop_at 0) []
              (initial_state Sample.params) (Sample.frame_at 9999999900) [])
    as (_ & A & _ & _ & s' & B & _ & _ & _ & C);
    [reflexivity | left; reflexivity | reflexivity |].
  split; [exact A|]. exists s'. auto.
Defined.

(** ** The cadence ratio *)

Lemma round_floor q : Qfloor q <= Py.round q <= Qfloor q + 1.
Proof.
  unfold Py.round.
  destruct (Qcompare (q - inject_Z (Qfloor q)) (1 # 2)); [destruct (Z.even _)|..]; lia.
Qed.

Lemma round_ge_1 q : (1 <= q)%Q -> 1 <= Py.round q.
Proof.
  intros H. apply Qfloor_resp_le in H. change (Qfloor 1) with 1 in H.
  pose proof (round_floor q). lia.
Qed.

Lemma rate_quotient_ge_1 fr dfr :
  0 < dfr <= fr -> (1 <= inject_Z fr / inject_Z dfr)%Q.
Proof.
  intros [H0 H1]. apply Qle_shift_div_l.
  - change 0%Q with (inject_Z 0). now rewrite <- Zlt_Qlt.
  - rewrite Qmult_1_l. now rewrite <- Zle_Qle.
Qed.

Lemma frameRatio_off p : displayFrameRate p <= 0 -> frameRatio p = RInf.
Proof.
  intros H. unfold frameRatio.
  now destruct (Z.leb_spec (displayFrameRate p) 0); [|lia].
Qed.

Lemma frameRatio_on p : 0 < displayFrameRate p -> frameRatio p = RInt (code_ratio p).
Proof.
  intros H. unfold frameRatio, code_ratio.
  destruct (Z.leb_spec (displayFrameRate p) 0); [lia|].
  destruct (Z.ltb_spec 0 (displayFrameRate p)); [|lia].
  now destruct (displayFrameRate p <=? frameRate p).
Qed.

Lemma code_ratio_cases p :
  0 < displayFrameRate p ->
  (displayFrameRate p <= frameRate p /\ 1 <= code_ratio p /\ code_ratio p = spec_ratio p) \/
  (frameRate p < displayFrameRate p /\ code_ratio p = frameRate p).
Proof.
  intros H. unfold code_ratio, spec_ratio.
  destruct (Z.leb_spec (displayFrameRate p) (frameRate p)) as [Hle|Hgt]; [left|right; auto].
  pose proof (round_ge_1 _ (rate_quotient_ge_1 (frameRate p) (displayFrameRate p)
                              (conj H Hle))).
  repeat split; auto; lia.
Qed.

Lemma code_ratio_nonzero p :
  0 < displayFrameRate p -> frameRate p <> 0 -> code_ratio p <> 0.
Proof.
  intros H Hfr. destruct (code_ratio_cases p H) as [(_ & H1 & _) | (_ & ->)]; lia.
Qed.

(** With a frame still to grab, the frame rate is not zero. *)
Lemma below_target_rate p c :
  Qle_bool (numImagesToGrab p) (inject_Z c) = false -> 0 <= c -> frameRate p <> 0.
Proof.
  intros H Hc Hfr.
  assert (Hle : (numImagesToGrab p <= inject_Z c)%Q).
  { unfold numImagesToGrab. rewrite Hfr. unfold Qle. simpl. nia. }
  apply Qle_bool_iff in Hle. congruence.
Qed.

Lemma downsample_ok d img : d <> 0 -> downsample d img = Ok (downsampled d img).
Proof.
  intros H. unfold downsample, Py.slice_step, downsampled.
  now destruct (Z.eqb_spec d 0).
Qed.

(** The display step completes when neither the ratio nor the step is zero. *)
Lemma show_result_ok p c img :
  frameRatio p <> RInt 0 -> displayDownsample p <> 0 -> show_result p c img = Ok tt.
Proof.
  intros Hr Hd. unfold show_result, mod_ratio_is_zero, Py.mod_.
  destruct (frameRatio p) as [|r].
  - now destruct (c =? 0); [rewrite downsample_ok|].
  - destruct (Z.eqb_spec r 0); [congruence|].
    now destruct (c mod r =? 0); [rewrite downsample_ok|].
Qed.

Lemma frameRatio_nonzero p : frameRate p <> 0 -> frameRatio p <> RInt 0.
Proof.
  intros Hfr. destruct (Z.le_gt_cases (displayFrameRate p) 0) as [H|H].
  - now rewrite frameRatio_off.
  - rewrite frameRatio_on by lia. intros [= E].
    apply (code_ratio_nonzero p); auto; lia.
Qed.

(** C10.  When the report interval is zero or one frame, the report of the
    first frame divides by zero: [cnt % 0] for zero, and for one [1 / 0.0],
    the first frame's relative timestamp being zero.  The [ZeroDivisionError]
    is caught by [except Exception] and logged, and the loop goes on; by then
    the frame's record is in [grabdata] and its buffer released.  The display
    step before the report is supposed to work: [displayDownsample] is not
    zero. *)
Theorem first_report_divides_by_zero p rounds t rest s img ts :
  chunkLengthInFrames p = 0 \/ chunkLengthInFrames p = 1 ->
  displayDownsample p <> 0 ->
  cnt s = 0 ->
  IsStreaming t = true -> stop_check p t s = false -> GetNextImage t = GrabOk img ts ->
  (chunkLengthInFrames p = 0 ->
     Py.mod_ 1 (chunkLengthInFrames p) = Raise ZeroDivisionError) /\
  (chunkLengthInFrames p = 1 ->
     Py.mod_ 1 (chunkLengthInFrames p) = Ok 0 /\
     Py.truediv 1 (grabtime_of ts ts) = Raise ZeroDivisionError) /\
  report_outcome p 1 (grabtime_of ts ts) = ([], Raise ZeroDivisionError) /\
  exists s',
    grab_loop p rounds (t :: rest) s = grab_loop p rounds rest s' /\
    cnt s' = 1 /\
    grabdata_frameNumber s' = grabdata_frameNumber s ++ [1] /\
    grabdata_timeStamp s' = grabdata_timeStamp s ++ [grabtime_of ts ts] /\
    writeQueue s' = writeQueue s ++ [WFrame img] /\
    events s' = events s ++ [EvGetNextImage true; EvRelease;
                             EvLogError ZeroDivisionError].
Proof.
  intros Hchunk Hd Hc Hs Hstop Hg.
  assert (Hdiv : Py.truediv 1 (grabtime_of ts ts) = Raise ZeroDivisionError).
  { unfold Py.truediv, grabtime_of. now rewrite Z.sub_diag. }
  assert (Hrep : report_outcome p 1 (grabtime_of ts ts) = ([], Raise ZeroDivisionError)).
  { unfold report_outcome. destruct Hchunk as [-> | ->]; [reflexivity|].
    simpl. now rewrite Hdiv. }
  split; [now intros ->|]. split; [now intros ->|]. split; [exact Hrep|].
  assert (Hfr : frameRate p <> 0).
  { apply (below_target_rate p (cnt s)); [|lia].
    unfold stop_check in Hstop. now apply orb_false_elim in Hstop. }
  assert (H0 : first_grab ts s = Some ts) by (unfold first_grab; now rewrite Hc).
  cbn [grab_loop]. rewrite Hs, Hstop, Hg. cbn [negb].
  rewrite (try_grab_ok_exact p img ts s ts H0), Hc. simpl Z.add.
  rewrite show_result_ok, Hrep by (try apply frameRatio_nonzero; auto; lia).
  eexists; split; [reflexivity|]. simpl. auto.
Qed.

(** C10 at a sample configuration: a report interval of 0.01 s at 30 frames
    per second. *)
Lemma first_report_divides_by_zero_witness :
  chunkLengthInFrames Sample.short_chunk = 0 /\
  exists s',
    GrabFrames Sample.short_chunk [] [Sample.frame_at 5] = Grabbing s' /\
    grabdata_frameNumber s' = [1] /\
    events s' = events (initial_state Sample.short_chunk) ++
                [EvGetNextImage true; EvRelease; EvLogError ZeroDivisionError].
Proof.
  split; [reflexivity|].
  destruct (first_report_divides_by_zero Sample.short_chunk [] (Sample.frame_at 5) []
              (initial_state Sample.short_chunk) Sample.img 5)
    as (_ & _ & _ & s' & E & _ & A & _ & _ & B);
    [left; reflexivity | discriminate | reflexivity | reflexivity | reflexivity
    | reflexivity |].
  exists s'. unfold GrabFrames. rewrite E. auto.
Defined.

(** ** The display queue *)

Lemma every_nth {A : Type} (d : nat) (l : list A) :
  (1 <= d)%nat ->
  forall skip i, nth_error (Py.every d skip l) i = nth_error l (skip + i * d).
Proof.
  intros Hd. induction l as [|x l IH]; intros skip i; simpl.
  - now destruct i, (skip + _)%nat.
  - destruct skip as [|k]; simpl.
    + destruct i as [|i]; simpl; [reflexivity|].
      rewrite IH. destruct d as [|d]; [lia|]. simpl. f_equal. lia.
    + apply IH.
Qed.

Lemma stride_nth {A : Type} (d : Z) (l : list A) (i : nat) :
  1 <= d -> nth_error (Py.stride d l) i = nth_error l (i * Z.to_nat d).
Proof.
  intros Hd. unfold Py.stride. destruct (Z.ltb_spec 0 d); [|lia].
  rewrite every_nth by lia. reflexivity.
Qed.

(** The display copy has, at row [i] and column [j], the pixel of the frame
    at row [i * d] and column [j * d]. *)
Lemma downsampled_pixel d img i j :
  1 <= d ->
  pixel (downsampled d img) i j = pixel img (i * Z.to_nat d) (j * Z.to_nat d).
Proof.
  intros Hd. unfold pixel, downsampled.
  rewrite nth_error_map, stride_nth by exact Hd.
  destruct (nth_error img (i * Z.to_nat d)); simpl; [now apply stride_nth | reflexivity].
Qed.

Lemma display_push_int p r c img :
  frameRatio p = RInt r -> r <> 0 -> displayDownsample p <> 0 ->
  display_push p c img =
    if c mod r =? 0 then [downsampled (displayDownsample p) img] else [].
Proof.
  intros H Hr Hd. unfold display_push. rewrite H.
  unfold mod_ratio_is_zero, Py.mod_.
  destruct (Z.eqb_spec r 0); [contradiction|].
  now destruct (c mod r =? 0); [rewrite downsample_ok|].
Qed.

Lemma display_push_inf p c img :
  frameRatio p = RInf -> c <> 0 -> display_push p c img = [].
Proof.
  intros H Hc. unfold display_push. rewrite H. unfold mod_ratio_is_zero.
  now destruct (Z.eqb_spec c 0).
Qed.

Lemma combine_snoc {A B : Type} (a : list A) (b : list B) x y :
  List.length a = List.length b ->
  combine (a ++ [x]) (b ++ [y]) = combine a b ++ [(x, y)].
Proof.
  revert b. induction a as [|u a IH]; intros [|v b]; simpl; try discriminate; auto.
  intros [= H]. now rewrite IH.
Qed.

Lemma numbers_1_to_length n : List.length (numbers_1_to n) = n.
Proof. unfold numbers_1_to. now rewrite length_map, length_seq. Qed.

Lemma displayed_step r d s s' img :
  session_inv s ->
  grabdata_frameNumber s' = grabdata_frameNumber s ++ [cnt s + 1] ->
  writeQueue s' = writeQueue s ++ [WFrame img] ->
  displayed r d s' =
    displayed r d s ++ (if (cnt s + 1) mod r =? 0 then [downsampled d img] else []).
Proof.
  intros (_ & Hf & _ & Hw & _) Hfn Hwq. unfold displayed.
  rewrite Hfn, Hwq, frames_app. simpl frames.
  rewrite combine_snoc by (now rewrite Hf, numbers_1_to_length, Hw).
  rewrite filter_app, map_app. simpl.
  now destruct ((cnt s + 1) mod r =? 0).
Qed.

Lemma displayed_frames r d s s' :
  grabdata_frameNumber s' = grabdata_frameNumber s ->
  frames (writeQueue s') = frames (writeQueue s) ->
  displayed r d s' = displayed r d s.
Proof. intros Hf Hw. unfold displayed. now rewrite Hf, Hw. Qed.

(** With an integer ratio the display queue holds the display copies of the
    frames whose number the ratio divides. *)
Lemma dispQueue_displayed p rounds script r :
  frameRatio p = RInt r -> r <> 0 -> displayDownsample p <> 0 ->
  let s := final_state (GrabFrames p rounds script) in
  dispQueue s = displayed r (displayDownsample p) s.
Proof.
  intros Hr Hr0 Hd. cbv zeta. unfold GrabFrames.
  set (I := fun s => session_inv s /\ dispQueue s = displayed r (displayDownsample p) s).
  destruct (grab_loop_ends p rounds I) with (script := script) (s := initial_state p)
    as (s' & (Hi & Hq) & Hend).
  - intros g s0 (Hi & Hq). split; [now apply session_inv_step|].
    destruct (try_grab_state p g s0 (proj2 (proj2 (proj2 (proj2 Hi)))))
      as [(e & evs & _ & -> & _) | (img & ts & t0 & evs & _ & _ & -> & _)].
    + simpl. rewrite Hq. now apply displayed_frames.
    + simpl. rewrite Hq, (display_push_int p r) by assumption.
      symmetry. now apply displayed_step.
  - split; [apply session_inv_initial | reflexivity].
  - destruct Hend as [-> | [-> | [(e & ->) | ->]]]; simpl; auto.
    rewrite finalize_state.
    destruct (close_returned _); simpl; rewrite Hq; symmetry;
      apply displayed_frames; simpl; auto.
    rewrite frames_app. simpl. now rewrite app_nil_r.
Qed.

(** Without a display rate the display queue stays empty. *)
Lemma dispQueue_empty p rounds script :
  frameRatio p = RInf ->
  dispQueue (final_state (GrabFrames p rounds script)) = [].
Proof.
  intros Hr. unfold GrabFrames.
  destruct (grab_loop_ends p rounds (fun s => session_inv s /\ dispQueue s = []))
    with (script := script) (s := initial_state p)
    as (s' & (Hi & Hq) & Hend).
  - intros g s0 (Hi & Hq). split; [now apply session_inv_step|].
    destruct (try_grab_state p g s0 (proj2 (proj2 (proj2 (proj2 Hi)))))
      as [(e & evs & _ & -> & _) | (img & ts & t0 & evs & _ & _ & -> & _)].
    + exact Hq.
    + simpl. rewrite Hq, display_push_inf; auto.
      destruct Hi as (Hc & _). lia.
  - split; [apply session_inv_initial | reflexivity].
  - destruct Hend as [-> | [-> | [(e & ->) | ->]]]; simpl; auto.
    rewrite finalize_state. now destruct (close_returned _).
Qed.

Lemma div_succ n r :
  0 < r -> 0 <= n ->
  (n + 1) / r = n / r + (if (n + 1) mod r =? 0 then 1 else 0).
Proof.
  intros Hr Hn.
  pose proof (Z.div_mod (n + 1) r ltac:(lia)) as E.
  pose proof (Z.mod_pos_bound (n + 1) r Hr) as B.
  destruct (Z.eqb_spec ((n + 1) mod r) 0) as [H0|H0].
  - symmetry. assert (n / r = (n + 1) / r - 1); [|lia].
    symmetry. apply (Z.div_unique n r _ (r - 1)); lia.
  - symmetry. rewrite Z.add_0_r. symmetry.
    apply (Z.div_unique n r _ ((n + 1) mod r - 1)); lia.
Qed.

Lemma count_multiples r n :
  0 < r ->
  Z.of_nat (List.length (filter (fun k => k mod r =? 0) (numbers_1_to n)))
    = Z.of_nat n / r.
Proof.
  intros Hr. induction n as [|n IH].
  - simpl. now rewrite Z.div_0_l by lia.
  - rewrite numbers_1_to_succ, filter_app, length_app, Nat2Z.inj_add, IH.
    replace (Z.of_nat (S n)) with (Z.of_nat n + 1) by lia.
    rewrite div_succ by lia. simpl.
    now destruct ((Z.of_nat n + 1) mod r =? 0).
Qed.

Lemma filter_combine_length {A B : Type} (f : A -> bool) (a : list A) (b : list B) :
  List.length a = List.length b ->
  List.length (filter (fun x => f (fst x)) (combine a b)) = List.length (filter f a).
Proof.
  revert b. induction a as [|u a IH]; intros [|v b]; simpl; try discriminate; auto.
  intros [= H]. destruct (f u); simpl; now rewrite IH.
Qed.

Lemma displayed_length r d s :
  0 < r -> session_inv s ->
  Z.of_nat (List.length (displayed r d s))
    = Z.of_nat (successful_grabs (events s)) / r.
Proof.
  intros Hr (_ & Hf & _ & Hw & _). unfold displayed.
  rewrite length_map.
  rewrite (filter_combine_length (fun k => k mod r =? 0))
    by (now rewrite Hf, numbers_1_to_length, Hw).
  rewrite Hf. now apply count_multiples.
Qed.

(** C4, as the code has it.  For a positive frame rate and a display step of
    at least one: with [displayFrameRate <= 0] nothing is ever put on the
    display queue; otherwise the ratio is [round(frameRate / displayFrameRate)]
    when [displayFrameRate <= frameRate] (it is then at least one, and the
    specified ratio) and [frameRate] itself when [displayFrameRate] is larger;
    the display queue holds, in order, the copies of exactly the frames whose
    number the ratio divides, [floor(N / ratio)] of them for [N] grabbed
    frames, each copy made of every [displayDownsample]-th row and column. *)
Theorem display_cadence p rounds script :
  0 < frameRate p -> 1 <= displayDownsample p ->
  let s := final_state (GrabFrames p rounds script) in
  let N := successful_grabs (events s) in
  let d := displayDownsample p in
  (displayFrameRate p <= 0 -> frameRatio p = RInf /\ dispQueue s = []) /\
  (0 < displayFrameRate p ->
     frameRatio p = RInt (code_ratio p) /\
     1 <= code_ratio p /\
     (displayFrameRate p <= frameRate p -> code_ratio p = spec_ratio p) /\
     (frameRate p < displayFrameRate p -> code_ratio p = frameRate p) /\
     dispQueue s = displayed (code_ratio p) d s /\
     Z.of_nat (List.length (dispQueue s)) = Z.of_nat N / code_ratio p) /\
  (forall img i j,
     pixel (downsampled d img) i j = pixel img (i * Z.to_nat d) (j * Z.to_nat d)).
Proof.
  intros Hfr Hd. cbv zeta. split; [|split].
  - intros Hoff. split; [now apply frameRatio_off|].
    apply dispQueue_empty. now apply frameRatio_off.
  - intros Hon.
    assert (Hr : 1 <= code_ratio p)
      by (destruct (code_ratio_cases p Hon) as [(_ & H & _) | (_ & ->)]; lia).
    pose proof (dispQueue_displayed p rounds script (code_ratio p)
                  (frameRatio_on p Hon) ltac:(lia) ltac:(lia)) as Hq.
    cbv zeta in Hq.
    repeat split; auto.
    + now apply frameRatio_on.
    + intros Hle. destruct (code_ratio_cases p Hon) as [(_ & _ & H) | (H & _)];
        [exact H | lia].
    + intros Hgt. destruct (code_ratio_cases p Hon) as [(H & _) | (_ & H)];
        [lia | exact H].
    + rewrite Hq. apply displayed_length; [lia|].
      apply session_inv_loop, session_inv_initial.
  - intros img i j. now apply downsampled_pixel.
Qed.

(** C4 at a sample session: 30 frames per second shown at 5, so every sixth
    of twelve frames is displayed. *)
Lemma display_cadence_witness :
  let s := final_state
             (GrabFrames Sample.params [Sample.close_ok] Sample.twelve_frames) in
  code_ratio Sample.params = 6 /\
  dispQueue s = displayed 6 2 s /\
  List.length (dispQueue s) = 2%nat.
Proof.
  destruct (display_cadence Sample.params [Sample.close_ok] Sample.twelve_frames)
    as (_ & H & _); [reflexivity | simpl; lia |].
  destruct H as (_ & _ & _ & _ & A & _); [reflexivity|].
  cbv zeta. split; [reflexivity|]. split; [exact A | reflexivity].
Defined.

(** C4 as stated fails when the display rate exceeds the frame rate: at 30
    frames per second and a display rate of 60 the specified ratio is
    [max(1, round(0.5)) = 1], every frame, while the code takes the frame
    rate, 30, as the ratio and displays neither of two frames. *)
Lemma display_rate_above_frame_rate :
  spec_ratio Sample.fast_display = 1 /\
  frameRatio Sample.fast_display = RInt 30 /\
  ~ cadence_as_specified Sample.fast_display [Sample.close_ok] Sample.two_frames.
Proof.
  split; [reflexivity|]. split; [reflexivity|].
  intros H. vm_compute in H. destruct H as [H _]. discriminate.
Qed.

(** ** Interrupting [CloseCamera] *)

(** An interrupt that arrives during the back-off sleep ends the retry loop:
    it reaches [except KeyboardInterrupt]. *)
Lemma interrupt_in_backoff_breaks p fn tm n more :
  close_returned
    (CloseCamera p fn tm
       (repeat Sample.close_busy n ++ Sample.interrupt_in_backoff :: more)) = true.
Proof.
  unfold CloseCamera.
  assert (H : exists evs,
             close_loop fn tm
               (repeat Sample.close_busy n ++ Sample.interrupt_in_backoff :: more)
             = CloseInterrupted evs).
  { induction n as [|n (evs & IH)]; simpl; [eauto|]. rewrite IH. eauto. }
  destruct H as (evs & ->). reflexivity.
Qed.

(** Whatever is raised inside the inner [try], an interrupt included, only
    leads to the back-off sleep: as long as no round completes its [try] and
    every back-off sleep returns, [CloseCamera] stays in its loop. *)
Lemma failing_rounds_keep_retrying p fn tm rounds :
  Forall (fun r => snd (close_try fn tm r) <> Ok tt /\ r_sleep_backoff r = Ok tt)
         rounds ->
  exists evs, CloseCamera p fn tm rounds = CloseRetrying evs.
Proof.
  intros H. unfold CloseCamera.
  assert (Hloop : exists evs, close_loop fn tm rounds = CloseRetrying evs).
  { induction H as [|r rounds (Hr & Hb) _ (evs & IH)]; simpl; [eauto|].
    destruct (close_try fn tm r) as (evs0, [[]|e]); simpl in Hr; [congruence|].
    rewrite Hb, IH. eauto. }
  destruct Hloop as (evs & ->). eauto.
Qed.

(** C8 fails on the code.  An interrupt that arrives inside the inner [try]
    (here during [time.sleep(1)]) is caught by the bare [except:], which
    sleeps and retries: with such an interrupt in every round, [CloseCamera]
    is still in its loop after any number of rounds. *)
Theorem interrupt_inside_try_is_swallowed p fn tm n :
  exists evs,
    CloseCamera p fn tm (repeat Sample.interrupt_in_try n) = CloseRetrying evs /\
    List.length (filter (fun e => match e with EvSleep _ => true | _ => false end) evs)
      = (2 * n)%nat.
Proof.
  unfold CloseCamera.
  assert (H : exists evs,
             close_loop fn tm (repeat Sample.interrupt_in_try n) = CloseRetrying evs /\
             List.length
               (filter (fun e => match e with EvSleep _ => true | _ => false end) evs)
             = (2 * n)%nat).
  { induction n as [|n (evs & IH & Hn)]; simpl; [eauto|].
    rewrite IH. eexists; split; [reflexivity|]. simpl. rewrite Hn. lia. }
  destruct H as (evs & -> & Hn). eexists; split; [reflexivity|]. exact Hn.
Qed.

(** ** The metadata file *)

(** What the modelled [SaveMetadata] gets right: the header, one row for
    each frame number, the frame numbers in their order in the first
    column. *)
Lemma SaveMetadata_rows fn tm :
  hd_error (Metadata.SaveMetadata fn tm) = Some Metadata.header /\
  List.length (tl (Metadata.SaveMetadata fn tm)) = List.length fn /\
  Metadata.column 0 (Metadata.SaveMetadata fn tm)
    = map (fun n => Some (Metadata.CInt n)) fn.
Proof.
  unfold Metadata.SaveMetadata, Metadata.column. simpl.
  rewrite length_map, length_combine, Nat.min_id, map_map.
  repeat split. induction fn as [|n fn IH]; simpl; [reflexivity | now rewrite IH].
Qed.

(** C3 fails on the modelled code.  For the records (1, 0.0) and (2, 0.5)
    the required file has 0.0 and 0.5 in the [timeStamp] column; the modelled
    [SaveMetadata] writes 1 and 2 there, and in general repeats the
    [frameNumber] column. *)
Theorem SaveMetadata_timeStamp_column :
  Metadata.column 1 (Metadata.required_file [1; 2] [0; 1 # 2]%Q)
    = [Some (Metadata.CFloat 0); Some (Metadata.CFloat (1 # 2))] /\
  Metadata.column 1 (Metadata.SaveMetadata [1; 2] [0; 1 # 2]%Q)
    = [Some (Metadata.CInt 1); Some (Metadata.CInt 2)] /\
  forall fn tm,
    Metadata.column 1 (Metadata.SaveMetadata fn tm)
      = Metadata.column 0 (Metadata.SaveMetadata fn tm).
Proof.
  split; [reflexivity|]. split; [reflexivity|].
  intros fn tm. unfold Metadata.SaveMetadata, Metadata.column. simpl.
  rewrite !map_map. simpl.
  induction fn as [|n fn IH]; simpl; [reflexivity | now rewrite IH].
Qed.

(** ** [prepare_camera] *)

Section PreparationFacts.

Import Preparation.

Variable camera : Type.
Variable configure_acquisition_mode : step camera.
Variable configure_exposure : Z -> step camera.
Variable configure_gain : Q -> step camera.
Variable disable_gamma : step camera.
Variable configure_trigger : string -> step camera.
Variable configure_buffer : string -> Z -> step camera.

Let prepare := prepare_camera camera configure_acquisition_mode configure_exposure
                 configure_gain disable_gamma configure_trigger configure_buffer.

Ltac run f := destruct f as [? [[|]|?]]; simpl.

Ltac run_step :=
  match goal with
  | |- context [configure_acquisition_mode ?c] => run (configure_acquisition_mode c)
  | |- context [configure_exposure ?a ?c] => run (configure_exposure a c)
  | |- context [configure_gain ?a ?c] => run (configure_gain a c)
  | |- context [disable_gamma ?c] => run (disable_gamma c)
  | |- context [configure_trigger ?a ?c] => run (configure_trigger a c)
  | |- context [configure_buffer ?a ?b ?c] => run (configure_buffer a b c)
  end.

(** C9.  [prepare_camera] calls the configuration functions in the order
    acquisition mode, exposure, gain, gamma, trigger, buffer, and stops at
    the first that does not return [True]: every call but the last returned
    [True], the result is what the last call gave, and it is [True] exactly
    when all six were called and each returned [True]. *)
Theorem prepare_camera_short_circuits
        (exposure_time : Z) (gain : Q) (trigger_type bufferMode : string)
        (bufferSize : Z) (cam : camera) :
  let out := prepare exposure_time gain trigger_type bufferMode bufferSize (cam, []) in
  let log := snd (fst out) in
  map fst log = firstn (List.length log) step_order /\
  Forall (fun c => snd c = Ok true) (removelast log) /\
  option_map snd (nth_error log (List.length log - 1)) = Some (snd out) /\
  (snd out = Ok true <->
   map fst log = step_order /\ Forall (fun c => snd c = Ok true) log).
Proof.
  unfold prepare, prepare_camera, pbind, call, pret. simpl.
  repeat run_step.
  all: repeat split; simpl; try discriminate; try reflexivity;
       repeat constructor; try tauto.
  all: try (intros (H & _); discriminate).
  all: intros (_ & H); repeat (apply Forall_cons_iff in H as (? & H));
       simpl in *; congruence.
Qed.

End PreparationFacts.

(** On the toy camera: when the gain cannot be set, gamma, trigger and buffer
    are not touched and the result is [False]; when it can, all six settings
    are applied and the result is [True]. *)
Example prepare_toy_gain_refused :
  Preparation.prepare_toy false ([], []) =
    ((["AcquisitionMode"%string; "ExposureTime"%string],
      [(Preparation.AcquisitionMode, Ok true); (Preparation.Exposure, Ok true);
       (Preparation.Gain, Ok false)]),
     Ok false).
Proof. reflexivity. Qed.

Example prepare_toy_all_applied :
  fst (fst (Preparation.prepare_toy true ([], []))) =
    ["AcquisitionMode"%string; "ExposureTime"%string; "Gain"%string; "GammaEnable"%string; "TriggerMode"%string;
     "StreamBufferCountManual"%string] /\
  snd (Preparation.prepare_toy true ([], [])) = Ok true.
Proof. split; reflexivity. Qed.

(** * Further properties of the acquisition loop *)

(** As [grab_loop_ends], for a property that the [try] preserves in the
    rounds that get to it, those whose stop check fails. *)
Lemma grab_loop_ends_checked p rounds (I : state -> Prop) :
  (forall t s, I s -> stop_check p t s = false ->
               I (fst (try_grab p (GetNextImage t) s))) ->
  forall script s, I s ->
  exists s', I s' /\
    (grab_loop p rounds script s = Grabbing s' \/
     grab_loop p rounds script s = StreamEnded s' \/
     (exists e, grab_loop p rounds script s = Uncaught e s') \/
     grab_loop p rounds script s = finalize p rounds s').
Proof.
  intros Hstep. induction script as [|t rest IH]; intros s Hs; simpl.
  - eauto.
  - destruct (negb (IsStreaming t)); [eauto|].
    destruct (stop_check p t s) eqn:Hc; [eauto 6|].
    specialize (Hstep t s Hs Hc).
    destruct (try_grab p (GetNextImage t) s) as (s1, [e|]); simpl in Hstep; eauto 7.
Qed.

(** A property of the session that finalization does not touch holds of
    every run if the checked rounds of the [try] preserve it. *)
Lemma session_property p rounds (I : state -> Prop) :
  (forall t s, session_inv s -> I s -> stop_check p t s = false ->
               I (fst (try_grab p (GetNextImage t) s))) ->
  (forall s evs, I s -> forallb close_event evs = true -> I (emit evs s)) ->
  (forall s, I s -> I (append_writeQueue WStop s)) ->
  I (initial_state p) ->
  forall script, I (final_state (GrabFrames p rounds script)).
Proof.
  intros Hstep Hemit Hstop H0 script. unfold GrabFrames.
  destruct (grab_loop_ends_checked p rounds (fun s => session_inv s /\ I s))
    with (script := script) (s := initial_state p) as (s' & (Hi & Hs') & Hend).
  - intros t s (Hi & Hs) Hc. split; [now apply session_inv_step | now apply Hstep].
  - split; [apply session_inv_initial | exact H0].
  - destruct Hend as [-> | [-> | [(e & ->) | ->]]]; simpl; auto.
    rewrite finalize_state.
    destruct (CloseCamera_events p (grabdata_frameNumber s') (grabdata_timeStamp s') rounds)
      as (Hevs & _).
    destruct (close_returned _); auto.
Qed.

(** ** The counter and the target *)

(** X1.  A frame is only ever grabbed while the counter is below
    [numImagesToGrab]: whatever the script offers, the counter ends at most
    one frame past a count that was still below the target. *)
Theorem counter_within_target p rounds script :
  within_target p (final_state (GrabFrames p rounds script)).
Proof.
  apply session_property.
  - intros t s Hi _ Hc. unfold stop_check in Hc.
    apply orb_false_elim in Hc as (_ & Hc).
    destruct (try_grab_state p (GetNextImage t) s (proj2 (proj2 (proj2 (proj2 Hi)))))
      as [(e & evs & _ & -> & _) | (img & ts & t0 & evs & _ & _ & -> & _)].
    + destruct (Z.eq_dec (cnt s) 0) as [E|E]; [now left|].
      right. simpl.
      destruct (Qlt_le_dec (inject_Z (cnt s - 1)) (numImagesToGrab p)) as [H|H]; auto.
      exfalso. assert (Hle : (numImagesToGrab p <= inject_Z (cnt s))%Q).
      { eapply Qle_trans; [exact H|]. rewrite <- Zle_Qle. lia. }
      apply Qle_bool_iff in Hle. congruence.
    + right. simpl. replace (cnt s + 1 - 1) with (cnt s) by lia.
      destruct (Qlt_le_dec (inject_Z (cnt s)) (numImagesToGrab p)) as [H|H]; auto.
      apply Qle_bool_iff in H. congruence.
  - intros s evs H _. exact H.
  - intros s H. exact H.
  - now left.
Qed.

(** X2.  With no frame to record ([recTimeInSec * frameRate <= 0]) the loop
    finalizes in its first round: [GetNextImage] is never called, nothing
    goes to the queues but ['STOP'], and [SaveMetadata] gets empty records. *)
Theorem nothing_to_record p rounds script :
  (numImagesToGrab p <= 0)%Q ->
  let s := final_state (GrabFrames p rounds script) in
  grab_attempts (events s) = 0%nat /\
  grabdata_frameNumber s = [] /\ grabdata_timeStamp s = [] /\
  frames (writeQueue s) = [] /\ dispQueue s = [] /\
  Forall (eq ([], [])) (saved (events s)).
Proof.
  intros H. cbv zeta. unfold GrabFrames.
  assert (Hc : forall t, stop_check p t (initial_state p) = true).
  { intros t. unfold stop_check.
    change (inject_Z (cnt (initial_state p))) with 0%Q.
    apply Qle_bool_iff in H. rewrite H. apply orb_true_r. }
  destruct script as [|t rest]; simpl; [repeat split; constructor|].
  destruct (negb (IsStreaming t)); [repeat split; constructor|].
  rewrite Hc, finalize_state.
  destruct (CloseCamera_events p (grabdata_frameNumber (initial_state p))
              (grabdata_timeStamp (initial_state p)) rounds) as (Hevs & _ & Hs & _).
  destruct (close_events_no_grab _ Hevs) as (Hz & _).
  destruct (close_returned _); simpl in *; unfold grab_attempts, saved in *; simpl;
    rewrite Hz; repeat split; auto.
Qed.

(** At a sample configuration with a recording time of zero. *)
Lemma nothing_to_record_witness :
  (numImagesToGrab Edge.no_time <= 0)%Q /\
  grab_attempts
    (events (final_state (GrabFrames Edge.no_time [Sample.close_ok]
                            (Sample.feed 3 0)))) = 0%nat.
Proof.
  assert (H : (numImagesToGrab Edge.no_time <= 0)%Q) by (vm_compute; discriminate).
  split; [exact H|].
  exact (proj1 (nothing_to_record Edge.no_time [Sample.close_ok] (Sample.feed 3 0) H)).
Defined.

(** ** What leaves the loop *)

Lemma try_grab_uncaught p g s s' e :
  try_grab p g s = (s', Some e) -> is_Exception e = false.
Proof.
  unfold try_grab, handle. destruct g as [img ts|e0].
  - destruct (grab_body p img ts _) as (s2, [[]|e2]); [discriminate|].
    destruct (is_SpinnakerException e2); [discriminate|].
    destruct (is_Exception e2) eqn:He; [discriminate|]. now intros [= _ <-].
  - destruct (is_SpinnakerException e0); [discriminate|].
    destruct (is_Exception e0) eqn:He; [discriminate|]. now intros [= _ <-].
Qed.

(** X3.  No [Exception] leaves the [try] of the loop: when [GrabFrames] ends in
    an exception before [CloseCamera] was entered, the exception is not an
    [Exception] (it is [KeyboardInterrupt]); anything else can only have come
    out of [CloseCamera]. *)
Theorem only_interrupts_leave_the_try p rounds script e s :
  GrabFrames p rounds script = Uncaught e s ->
  (closings (events s) = 0%nat /\ e = KeyboardInterrupt) \/
  closings (events s) = 1%nat.
Proof.
  unfold GrabFrames.
  assert (H : forall s0, session_inv s0 -> not_finalized s0 ->
            grab_loop p rounds script s0 = Uncaught e s ->
            (closings (events s) = 0%nat /\ e = KeyboardInterrupt) \/
            closings (events s) = 1%nat).
  { induction script as [|t rest IH]; intros s0 Hi Hn; simpl; [discriminate|].
    destruct (negb (IsStreaming t)); [discriminate|].
    destruct (stop_check p t s0).
    - unfold finalize.
      pose proof (CloseCamera_events p (grabdata_frameNumber s0)
                    (grabdata_timeStamp s0) rounds) as (_ & Hc & _).
      destruct (CloseCamera _ _ _ _); intros [= <- <-]. right.
      simpl in *. rewrite closings_app, Hc. destruct Hn as (-> & _). reflexivity.
    - pose proof (session_inv_step p (GetNextImage t) s0 Hi) as Hi1.
      pose proof (not_finalized_step p (GetNextImage t) s0
                    (proj2 (proj2 (proj2 (proj2 Hi)))) Hn) as Hn1.
      destruct (try_grab p (GetNextImage t) s0) as (s1, [e1|]) eqn:Ht; simpl in *.
      + intros [= <- <-]. left. split; [apply Hn1|].
        apply try_grab_uncaught in Ht. now destruct e1.
      + now apply IH. }
  apply H; [apply session_inv_initial | repeat split].
Qed.

(** At a sample run: an interrupt while waiting for the second frame. *)
Lemma only_interrupts_leave_the_try_witness :
  exists s,
    GrabFrames Sample.params [] [Sample.frame_at 0; Edge.interrupted] =
      Uncaught KeyboardInterrupt s /\
    closings (events s) = 0%nat.
Proof.
  eexists. split; [vm_compute; reflexivity|].
  destruct (only_interrupts_leave_the_try Sample.params []
              [Sample.frame_at 0; Edge.interrupted] KeyboardInterrupt _ eq_refl)
    as [(H & _) | H]; [exact H | vm_compute in H; discriminate].
Defined.

(** ** The write queue *)

Lemma write_queue_loop p rounds script :
  forall pre s,
    session_inv s ->
    writeQueue s = map WFrame pre ->
    List.length pre = successful_grabs (events s) ->
    let o := grab_loop p rounds script s in
    exists k,
      writeQueue (final_state o) =
        map WFrame (pre ++ firstn k (script_images script)) ++
        (if is_Finalized o then [WStop] else []) /\
      List.length (pre ++ firstn k (script_images script))
        = successful_grabs (events (final_state o)).
Proof.
  induction script as [|t rest IH]; intros pre s Hi Hw Hl; cbv zeta.
  - exists 0%nat. simpl. now rewrite !app_nil_r.
  - cbn [grab_loop].
    destruct (negb (IsStreaming t)).
    { exists 0%nat. simpl. now rewrite !app_nil_r. }
    destruct (stop_check p t s).
    { exists 0%nat. unfold finalize.
      pose proof (CloseCamera_events p (grabdata_frameNumber s)
                    (grabdata_timeStamp s) rounds) as (Hevs & _).
      destruct (close_events_no_grab _ Hevs) as (_ & Hz).
      destruct (CloseCamera _ _ _ _); simpl in *;
        rewrite !app_nil_r, successful_grabs_app, Hz, Nat.add_0_r, Hw; auto. }
    pose proof (session_inv_step p (GetNextImage t) s Hi) as Hi1.
    destruct (try_grab_state p (GetNextImage t) s (proj2 (proj2 (proj2 (proj2 Hi)))))
      as [(e & evs & Hg & Hs1 & Hevs) | (img & ts & t0 & evs & Hg & _ & Hs1 & Hevs)];
      destruct (loop_events_no_grab evs Hevs) as (_ & Hz).
    + assert (Him : script_images (t :: rest) = script_images rest)
        by (unfold script_images; simpl; now rewrite Hg).
      rewrite Him.
      destruct (try_grab p (GetNextImage t) s) as (s1, [e'|]); simpl in Hs1; subst s1.
      * exists 0%nat. simpl. rewrite !app_nil_r.
        change (EvGetNextImage false :: evs) with ([EvGetNextImage false] ++ evs).
        rewrite !successful_grabs_app, Hz. simpl. rewrite Nat.add_0_r. auto.
      * apply IH; simpl; auto.
        change (EvGetNextImage false :: evs) with ([EvGetNextImage false] ++ evs).
        rewrite !successful_grabs_app, Hz. simpl. lia.
    + assert (Him : script_images (t :: rest) = img :: script_images rest)
        by (unfold script_images; simpl; now rewrite Hg).
      rewrite Him, Hs1. rewrite Hs1 in Hi1. simpl in Hi1.
      match goal with |- context [grab_loop p rounds rest ?s1] =>
        destruct (IH (pre ++ [img]) s1 Hi1) as (k & A & B) end.
      { simpl. now rewrite Hw, map_app. }
      { simpl. change (EvGetNextImage true :: evs) with ([EvGetNextImage true] ++ evs).
        rewrite !successful_grabs_app, Hz, length_app. simpl. lia. }
      exists (S k). cbv zeta in A, B.
      repeat rewrite <- app_assoc in A. repeat rewrite <- app_assoc in B.
      cbn [app] in A, B. cbn [firstn]. split; assumption.
Qed.

(** X4.  The write queue holds the pixel arrays of the grab results in the order
    they came, none lost, repeated or reordered: with [N] frames grabbed, the
    first [N] images of the script, followed by ['STOP'] if and only if the
    run was finalized. *)
Theorem write_queue_in_capture_order p rounds script :
  let o := GrabFrames p rounds script in
  let s := final_state o in
  writeQueue s =
    map WFrame (firstn (successful_grabs (events s)) (script_images script)) ++
    (if is_Finalized o then [WStop] else []).
Proof.
  cbv zeta.
  destruct (write_queue_loop p rounds script [] (initial_state p)) as (k & Hk & Hn);
    try reflexivity; [apply session_inv_initial|].
  fold (GrabFrames p rounds script) in *. simpl in Hk, Hn.
  now rewrite <- Hn, firstn_length_firstn.
Qed.

(** ** Releasing the buffers *)

Lemma releases_app a b : releases (a ++ b) = (releases a + releases b)%nat.
Proof. unfold releases. now rewrite filter_app, length_app. Qed.

Lemma report_outcome_no_release p c g : releases (fst (report_outcome p c g)) = 0%nat.
Proof.
  unfold report_outcome.
  destruct (Py.mod_ c (chunkLengthInFrames p)) as [m|e1]; [|reflexivity].
  destruct (m =? 0); [|reflexivity].
  now destruct (Py.truediv c g).
Qed.

Lemma close_events_no_release evs :
  forallb close_event evs = true -> releases evs = 0%nat.
Proof.
  intros H. unfold releases.
  now rewrite (filter_none _ close_event) by (assumption || now intros []).
Qed.

(** The releases of a round whose [GetNextImage] returned: one, unless the
    display step raised. *)
Lemma try_grab_releases p img ts s t0 :
  first_grab ts s = Some t0 ->
  releases (events (fst (try_grab p (GrabOk img ts) s))) =
    (releases (events s) +
     match show_result p (cnt s + 1) img with Ok _ => 1 | Raise _ => 0 end)%nat.
Proof.
  intros H0. rewrite (try_grab_ok_exact p img ts s t0 H0). simpl.
  rewrite releases_app. f_equal.
  destruct (show_result p (cnt s + 1) img); [|reflexivity].
  change (EvGetNextImage true :: EvRelease :: ?l) with
    ([EvGetNextImage true; EvRelease] ++ l).
  unfold releases at 1. simpl. rewrite filter_app, length_app.
  fold (releases (fst (report_outcome p (cnt s + 1) (grabtime_of ts t0)))).
  rewrite report_outcome_no_release.
  now destruct (snd (report_outcome p (cnt s + 1) (grabtime_of ts t0))).
Qed.

(** The state a round leaves whose [GetNextImage] raised, in full. *)
Lemma try_grab_raise_exact p e s :
  fst (try_grab p (GrabRaise e) s) = emit (EvGetNextImage false :: handler_events e) s.
Proof.
  unfold try_grab, handle, handler_events.
  destruct (is_SpinnakerException e); [|destruct (is_Exception e)]; simpl;
    unfold emit; simpl; rewrite <- ?app_assoc; reflexivity.
Qed.

Lemma handler_events_quiet e :
  releases (handler_events e) = 0%nat /\ successful_grabs (handler_events e) = 0%nat.
Proof.
  unfold handler_events.
  destruct (is_SpinnakerException e); [|destruct (is_Exception e)]; split; reflexivity.
Qed.

(** X5.  With a display step that is not zero, every frame grabbed is released
    exactly once, whatever the report does afterwards. *)
Theorem every_frame_released p rounds script :
  displayDownsample p <> 0 ->
  let s := final_state (GrabFrames p rounds script) in
  releases (events s) = successful_grabs (events s).
Proof.
  intros Hd. cbv zeta.
  apply (session_property p rounds
           (fun s => releases (events s) = successful_grabs (events s))).
  - intros t s Hi Hs Hc.
    assert (Hfr : frameRate p <> 0).
    { apply (below_target_rate p (cnt s)).
      - unfold stop_check in Hc. now apply orb_false_elim in Hc.
      - destruct Hi as (-> & _). lia. }
    destruct (GetNextImage t) as [img ts|e].
    + destruct (bound_first_grab ts s (proj2 (proj2 (proj2 (proj2 Hi))))) as (t0 & H0).
      rewrite (try_grab_releases p img ts s t0 H0).
      destruct (try_grab_ok p img ts s t0 H0) as (evs & -> & Hevs).
      destruct (loop_events_no_grab evs Hevs) as (_ & Hz). simpl.
      change (EvGetNextImage true :: evs) with ([EvGetNextImage true] ++ evs).
      rewrite !successful_grabs_app, Hz, Hs.
      rewrite show_result_ok by (try apply frameRatio_nonzero; auto).
      simpl. lia.
    + rewrite try_grab_raise_exact. simpl.
      change (EvGetNextImage false :: handler_events e)
        with ([EvGetNextImage false] ++ handler_events e).
      destruct (handler_events_quiet e) as (Hr & Hg).
      rewrite !releases_app, !successful_grabs_app, Hr, Hg, Hs. reflexivity.
  - intros s evs H Hevs. simpl.
    rewrite releases_app, successful_grabs_app, (close_events_no_release _ Hevs).
    destruct (close_events_no_grab _ Hevs) as (_ & ->). lia.
  - intros s H. exact H.
  - reflexivity.
Qed.

(** At the sample configuration, over twelve frames. *)
Lemma every_frame_released_witness :
  releases (events (final_state
     (GrabFrames Sample.params [Sample.close_ok] Sample.twelve_frames))) = 12%nat.
Proof.
  rewrite (every_frame_released Sample.params [Sample.close_ok] Sample.twelve_frames)
    by discriminate.
  reflexivity.
Defined.

Lemma show_result_zero_step p r c img :
  frameRatio p = RInt r -> r <> 0 -> displayDownsample p = 0 ->
  show_result p c img = (if c mod r =? 0 then Raise ValueError else Ok tt) /\
  display_push p c img = [].
Proof.
  intros Hr Hr0 Hd. unfold show_result, display_push. rewrite Hr, Hd.
  unfold mod_ratio_is_zero, Py.mod_. destruct (Z.eqb_spec r 0); [contradiction|].
  now destruct (c mod r =? 0).
Qed.

(** X6.  With a display step of zero the slicing raises [ValueError] for every
    frame that is due on the display, before [Release] is reached: nothing is
    ever put on the display queue, and of [N] frames grabbed the
    [floor(N / ratio)] due ones are never released. *)
Theorem zero_step_skips_release p rounds script :
  displayDownsample p = 0 -> 0 < frameRate p -> 0 < displayFrameRate p ->
  let s := final_state (GrabFrames p rounds script) in
  let N := Z.of_nat (successful_grabs (events s)) in
  dispQueue s = [] /\
  Z.of_nat (releases (events s)) = N - N / code_ratio p.
Proof.
  intros Hd Hfr Hon. cbv zeta.
  assert (Hr : 1 <= code_ratio p)
    by (destruct (code_ratio_cases p Hon) as [(_ & H & _) | (_ & ->)]; lia).
  apply (session_property p rounds
           (fun s => dispQueue s = [] /\
                     Z.of_nat (releases (events s)) =
                       Z.of_nat (successful_grabs (events s)) -
                       Z.of_nat (successful_grabs (events s)) / code_ratio p)).
  - intros t s Hi (Hq & Hs) _.
    destruct (GetNextImage t) as [img ts|e].
    + destruct (bound_first_grab ts s (proj2 (proj2 (proj2 (proj2 Hi))))) as (t0 & H0).
      rewrite (try_grab_releases p img ts s t0 H0).
      destruct (try_grab_ok p img ts s t0 H0) as (evs & -> & Hevs).
      destruct (loop_events_no_grab evs Hevs) as (_ & Hz). simpl.
      destruct (show_result_zero_step p (code_ratio p) (cnt s + 1) img
                  (frameRatio_on p Hon) ltac:(lia) Hd) as (-> & ->).
      rewrite Hq. split; [reflexivity|].
      change (EvGetNextImage true :: evs) with ([EvGetNextImage true] ++ evs).
      rewrite !successful_grabs_app, Hz. simpl.
      destruct Hi as (Hc & _). rewrite Hc.
      replace (Z.of_nat (successful_grabs (events s) + 1))
        with (Z.of_nat (successful_grabs (events s)) + 1) by lia.
      rewrite div_succ by lia.
      destruct ((Z.of_nat (successful_grabs (events s)) + 1) mod code_ratio p =? 0); lia.
    + rewrite try_grab_raise_exact. simpl. split; [exact Hq|].
      change (EvGetNextImage false :: handler_events e)
        with ([EvGetNextImage false] ++ handler_events e).
      destruct (handler_events_quiet e) as (Hr' & Hg).
      rewrite !releases_app, !successful_grabs_app, Hr', Hg. simpl.
      rewrite !Nat.add_0_r. exact Hs.
  - intros s evs (Hq & Hs) Hevs. simpl. split; [exact Hq|].
    rewrite releases_app, successful_grabs_app, (close_events_no_release _ Hevs).
    destruct (close_events_no_grab _ Hevs) as (_ & ->). now rewrite !Nat.add_0_r.
  - intros s H. exact H.
  - split; [reflexivity|]. change (0 = 0 - 0 / code_ratio p).
    now rewrite Z.div_0_l by lia.
Qed.

(** At a sample configuration that displays every frame with step zero: of
    two frames grabbed none is released. *)
Lemma zero_step_skips_release_witness :
  let s := final_state (GrabFrames Edge.zero_step [Sample.close_ok] Sample.two_frames) in
  successful_grabs (events s) = 2%nat /\ releases (events s) = 0%nat /\ dispQueue s = [].
Proof.
  destruct (zero_step_skips_release Edge.zero_step [Sample.close_ok] Sample.two_frames)
    as (A & B); try reflexivity.
  cbv zeta. split; [reflexivity|]. split; [|exact A].
  vm_compute in B. vm_compute. congruence.
Defined.

(** ** The throughput reports *)

Lemma report_in_order_grows p tsl g e :
  report_in_order p tsl e -> report_in_order p (tsl ++ [g]) e.
Proof.
  destruct e; simpl; auto.
  intros (A & B & C & D & g0 & E & F & G). repeat split; auto.
  exists g0. split; [|auto].
  rewrite nth_error_app1; [exact E|]. apply nth_error_Some. congruence.
Qed.

Lemma report_outcome_in_order p c g tsl :
  0 < c -> nth_error tsl (Z.to_nat (c - 1)) = Some g ->
  Forall (report_in_order p tsl) (fst (report_outcome p c g)).
Proof.
  intros Hc Hg. unfold report_outcome, Py.mod_, Py.truediv.
  destruct (Z.eqb_spec (chunkLengthInFrames p) 0) as [E|E]; [constructor|].
  destruct (Z.eqb_spec (c mod chunkLengthInFrames p) 0) as [M|M]; [|constructor].
  destruct (Qeq_bool g 0) eqn:Q0; [constructor|].
  repeat constructor; auto.
  exists g. repeat split; auto.
  intros H. apply Qeq_bool_iff in H. congruence.
Qed.

(** X7.  Every throughput report of a session names the camera, is printed for a
    frame count that is a positive multiple of [chunkLengthInFrames], and
    gives [round(count / timestamp)] for that frame's relative timestamp,
    which is not zero. *)
Theorem reports_at_chunk_multiples p rounds script :
  let s := final_state (GrabFrames p rounds script) in
  Forall (report_in_order p (grabdata_timeStamp s)) (events s).
Proof.
  cbv zeta.
  apply (session_property p rounds
           (fun s => Forall (report_in_order p (grabdata_timeStamp s)) (events s))).
  - intros t s Hi Hs _.
    destruct (GetNextImage t) as [img ts|e].
    + destruct (bound_first_grab ts s (proj2 (proj2 (proj2 (proj2 Hi))))) as (t0 & H0).
      rewrite (try_grab_ok_exact p img ts s t0 H0). simpl.
      apply Forall_app. split.
      * eapply Forall_impl; [|exact Hs]. intros e. apply report_in_order_grows.
      * constructor; [exact I|].
        destruct (show_result p (cnt s + 1) img); [|repeat constructor].
        constructor; [exact I|]. apply Forall_app. split.
        -- apply report_outcome_in_order.
           ++ destruct Hi as (-> & _). lia.
           ++ destruct Hi as (Hc & _ & Hl & _).
              replace (Z.to_nat (cnt s + 1 - 1)) with (List.length (grabdata_timeStamp s))
                by (rewrite Hl, Hc; lia).
              now rewrite nth_error_app2, Nat.sub_diag by lia.
        -- destruct (snd (report_outcome _ _ _)); repeat constructor.
    + rewrite try_grab_raise_exact. simpl. apply Forall_app. split; [exact Hs|].
      constructor; [exact I|]. unfold handler_events.
      destruct (is_SpinnakerException e); [|destruct (is_Exception e)];
        repeat constructor.
  - intros s evs Hs Hevs. simpl. apply Forall_app. split; [exact Hs|].
    apply Forall_forall. intros e He.
    rewrite forallb_forall in Hevs. specialize (Hevs e He). now destruct e.
  - intros s H. exact H.
  - repeat constructor.
Qed.

(** ** The rounds of [CloseCamera] *)

Lemma backoffs_app a b : backoffs (a ++ b) = (backoffs a + backoffs b)%nat.
Proof. unfold backoffs. now rewrite filter_app, length_app. Qed.

Lemma close_try_counts fn tm r :
  List.length (saved (fst (close_try fn tm r))) = 1%nat /\
  backoffs (fst (close_try fn tm r)) = 0%nat.
Proof.
  unfold close_try.
  destruct (r_SaveMetadata r); [destruct (r_sleep_1 r); [destruct (r_Close r);
    [destruct (r_StopGrabbing r)|]|]|]; split; reflexivity.
Qed.

Lemma close_loop_saves fn tm rounds :
  let o := close_loop fn tm rounds in
  List.length (saved (close_events o)) =
    (backoffs (close_events o) + (if is_CloseDone o then 1 else 0))%nat.
Proof.
  induction rounds as [|r rounds IH]; simpl; [reflexivity|].
  destruct (close_try_counts fn tm r) as (Hs & Hb).
  destruct (close_try fn tm r) as (evs, [[]|e]); simpl in *.
  - rewrite Hs, Hb. reflexivity.
  - assert (Hone : forall evs',
              List.length (saved (evs ++ EvSleep (1 # 10) :: evs')) =
                S (List.length (saved evs')) /\
              backoffs (evs ++ EvSleep (1 # 10) :: evs') = S (backoffs evs')).
    { intros evs'. rewrite saved_app, length_app, backoffs_app, Hs, Hb. split; reflexivity. }
    destruct (r_sleep_backoff r) as [[]|[]].
    2-8: simpl; destruct (Hone []) as (A & B); rewrite A, B; reflexivity.
    destruct (close_loop fn tm rounds) as [evs'|evs'|e' evs'|evs']; simpl in *;
      destruct (Hone evs') as (A & B); rewrite A, B, IH; reflexivity.
Qed.

(** X8.  [SaveMetadata] is called anew in every round of [CloseCamera]: once for
    each back-off sleep, and once more in the round that completes. *)
Theorem metadata_saved_every_round p fn tm rounds :
  let o := CloseCamera p fn tm rounds in
  List.length (saved (close_events o)) =
    (backoffs (close_events o) + (if is_CloseDone o then 1 else 0))%nat /\
  Forall (eq (fn, tm)) (saved (close_events o)).
Proof.
  cbv zeta. split; [|apply CloseCamera_events].
  unfold CloseCamera. pose proof (close_loop_saves fn tm rounds) as H.
  destruct (close_loop fn tm rounds); simpl in *; exact H.
Qed.

Lemma close_try_done fn tm r evs :
  close_try fn tm r = (evs, Ok tt) ->
  evs = [EvSaveMetadata fn tm; EvSleep 1; EvCameraClose; EvStopGrabbing].
Proof.
  unfold close_try.
  destruct (r_SaveMetadata r); [destruct (r_sleep_1 r); [destruct (r_Close r);
    [destruct (r_StopGrabbing r)|]|]|]; now intros [= <-].
Qed.

(** X9.  When [CloseCamera] completes, its last four actions are, in this order,
    [SaveMetadata] with the records, the sleep of one second,
    [camera.Close()] and [camera.StopGrabbing()]. *)
Theorem close_sequence_order p fn tm rounds evs :
  CloseCamera p fn tm rounds = CloseDone evs ->
  exists before,
    evs = before ++ [EvSaveMetadata fn tm; EvSleep 1; EvCameraClose; EvStopGrabbing].
Proof.
  unfold CloseCamera.
  assert (H : forall evs0, close_loop fn tm rounds = CloseDone evs0 ->
            exists before,
              evs0 = before ++ [EvSaveMetadata fn tm; EvSleep 1; EvCameraClose;
                               EvStopGrabbing]).
  { induction rounds as [|r rounds IH]; simpl; [discriminate|].
    intros evs0. pose proof (close_try_done fn tm r) as Hdone.
    destruct (close_try fn tm r) as (evs1, [[]|e]).
    - intros [= <-]. exists []. now apply Hdone.
    - destruct (r_sleep_backoff r) as [[]|[]]; try discriminate.
      destruct (close_loop fn tm rounds) as [evs'|evs'|e' evs'|evs'];
        try discriminate.
      intros [= <-]. destruct (IH evs' eq_refl) as (before & ->).
      exists (evs1 ++ EvSleep (1 # 10) :: before).
      now rewrite <- app_assoc. }
  destruct (close_loop fn tm rounds) as [evs'|evs'|e' evs'|evs']; try discriminate.
  intros [= <-]. destruct (H evs' eq_refl) as (before & ->).
  exists (EvPrintClosing (n_cam p + 1) :: before). reflexivity.
Qed.

(** At a sample run: the camera is busy twice, then closes. *)
Lemma close_sequence_order_witness :
  exists evs before,
    CloseCamera Sample.params [1; 2] [0; 1 # 30]%Q
      [Sample.close_busy; Sample.close_busy; Sample.close_ok] = CloseDone evs /\
    evs = before ++ [EvSaveMetadata [1; 2] [0; 1 # 30]%Q; EvSleep 1; EvCameraClose;
                     EvStopGrabbing].
Proof.
  eexists.
  destruct (close_sequence_order Sample.params [1; 2] [0; 1 # 30]%Q
              [Sample.close_busy; Sample.close_busy; Sample.close_ok] _ eq_refl)
    as (before & H).
  exists before. split; [reflexivity | exact H].
Defined.

(** * The camera preparation over the SDK *)

Section SpinnakerFacts.

Import Spinnaker.

Context {camera : Type} (sdk : Sdk camera).

(** Case analysis on the outcome of the next SDK call. *)
Ltac next_call :=
  match goal with
  | |- context [run sdk ?c ?cam] =>
      destruct (run sdk c cam) as [? [[]|[]]]
  | |- context [ask_bool sdk ?c ?cam] =>
      destruct (ask_bool sdk c cam) as [? [[|]|[]]]
  | |- context [ask_mode sdk ?c ?cam] =>
      destruct (ask_mode sdk c cam) as [? [[| | | |]|[]]]
  | |- context [ask_int sdk ?c ?cam] =>
      destruct (ask_int sdk c cam) as [? [?|[]]]
  | |- context [ask_float sdk ?c ?cam] =>
      destruct (ask_float sdk c cam) as [? [?|[]]]
  | |- context [ask_str sdk ?c ?cam] =>
      destruct (ask_str sdk c cam) as [? [?|[]]]
  end; cbn.

Ltac unfold_dev :=
  unfold except_spinnaker, not_both, dbind, dret,
    GetInstance, GetCameras, GetItem, DeInit, Init, GetNodeMap, GetTLStreamNodeMap,
    GetNode, GetEntryByName, GetCurrentEntry, IsAvailable, IsWritable, IsReadable,
    GetAccessMode, GetValue, GetValue_str, GetMax, GetMax_int, SetIntValue, SetValue,
    GetDisplayName, ToString, perform; cbn.

(** Takes apart what is known about a log that is by now a list of known
    calls. *)
Ltac by_log :=
  cbn in *;
  repeat match goal with
         | |- forall _, _ => intro
         | H : _ \/ _ |- _ => destruct H
         | H : (_, _) = (_, _) |- _ => inversion H; subst; clear H
         | H : False |- _ => destruct H
         | H : _ /\ _ |- _ => destruct H
         end;
  try discriminate; try congruence.

Lemma py_min_le a b : (py_min a b <= a)%Q /\ (py_min a b <= b)%Q.
Proof.
  unfold py_min. destruct (Qle_bool a b) eqn:H.
  - apply Qle_bool_iff in H. split; [apply Qle_refl | exact H].
  - split; [|apply Qle_refl]. apply Qlt_le_weak, Qnot_le_lt.
    intros H'. apply Qle_bool_iff in H'. congruence.
Qed.

(** X10.  [configure_exposure] never asks for more than the maximum the camera
    reports: whatever it writes to [ExposureTime] is the smaller of the
    requested time and the reading of [GetMax] it has just made.  When it
    returns [True] it has made two writes: automatic exposure off, then that
    exposure time. *)
Theorem exposure_capped_at_maximum (exposure_time : Z) (cam : camera) :
  let out := configure_exposure sdk exposure_time (cam, []) in
  let l := snd (fst out) in
  (forall v r, In (Call.SetValue ExposureTime v, r) l ->
     exists mx,
       In (Call.GetMax ExposureTime, Ok (AFloat mx)) l /\
       v = VFloat (py_min mx (inject_Z exposure_time)) /\
       (py_min mx (inject_Z exposure_time) <= mx)%Q /\
       (py_min mx (inject_Z exposure_time) <= inject_Z exposure_time)%Q) /\
  (snd out = Ok true ->
     exists mx,
       writes l = [Call.SetValue ExposureAuto (VConst ExposureAuto_Off);
                   Call.SetValue ExposureTime
                     (VFloat (py_min mx (inject_Z exposure_time)))]).
Proof.
  cbv zeta. unfold configure_exposure. unfold_dev.
  repeat next_call.
  all: split; [intros v r Hin | intros Hr]; by_log.
  all: try (eexists; reflexivity).
  all: eexists; split; [eauto 10|]; split; [reflexivity|]; apply py_min_le.
Qed.

Lemma clamped_gain_bounds gain max_gain mx :
  (max_gain == mx)%Q -> (0 <= mx)%Q ->
  (0 <= clamped_gain gain max_gain mx)%Q /\ (clamped_gain gain max_gain mx <= mx)%Q.
Proof.
  intros He Hm. unfold clamped_gain.
  destruct (Qle_bool gain mx) eqn:H1.
  - apply Qle_bool_iff in H1. destruct (Qle_bool gain 0) eqn:H0.
    + split; [apply Qle_refl | exact Hm].
    + split; [|exact H1]. apply Qlt_le_weak, Qnot_le_lt.
      intros H'. apply Qle_bool_iff in H'. congruence.
  - rewrite He. split; [exact Hm | apply Qle_refl].
Qed.

(** X11.  The gain [configure_gain] writes is the requested one brought into range:
    the maximum when the request exceeds it, zero when the request is not
    positive.  With the two readings of the maximum agreeing on a
    non-negative value, what is written lies between zero and the maximum.
    When it returns [True] it has made two writes: automatic gain off, then
    the gain. *)
Theorem gain_brought_into_range (gain : Q) (cam : camera) :
  let out := configure_gain sdk gain (cam, []) in
  let l := snd (fst out) in
  (forall v r, In (Call.SetValue Gain v, r) l ->
     exists max_gain mx,
       In (Call.GetMax Gain, Ok (AFloat max_gain)) l /\
       In (Call.GetMax Gain, Ok (AFloat mx)) l /\
       v = VFloat (clamped_gain gain max_gain mx) /\
       ((max_gain == mx)%Q -> (0 <= mx)%Q ->
        (0 <= clamped_gain gain max_gain mx)%Q /\
        (clamped_gain gain max_gain mx <= mx)%Q)) /\
  (snd out = Ok true ->
     exists off max_gain mx,
       writes l = [Call.SetIntValue GainAuto off;
                   Call.SetValue Gain (VFloat (clamped_gain gain max_gain mx))]).
Proof.
  cbv zeta. unfold configure_gain. unfold_dev.
  repeat next_call.
  all: split; [intros v r Hin | intros Hr]; by_log.
  all: try (do 3 eexists; reflexivity).
  all: match goal with
       | |- context [VFloat (clamped_gain _ ?a ?b) = _] => exists a, b
       end.
  all: split; [auto 20|]; split; [auto 20|]; split; [reflexivity|];
       apply clamped_gain_bounds.
Qed.

(** X12.  [configure_acquisition_mode] and [disable_gamma] write to their node only
    after the SDK has answered that the node is available and writable (and,
    for the acquisition mode, that the entry [Continuous] is available and
    readable); the value written is that entry's value, and [False] for the
    gamma.  When they return [True] that write is the only one made. *)
Theorem writes_follow_the_checks (cam : camera) :
  (let out := configure_acquisition_mode sdk (cam, []) in
   let l := snd (fst out) in
   (forall n v r, In (Call.SetValue n v, r) l -> False) /\
   (forall n z r, In (Call.SetIntValue n z, r) l ->
      n = AcquisitionMode /\
      In (Call.IsAvailable (Node AcquisitionMode), Ok (ABool true)) l /\
      In (Call.IsWritable (Node AcquisitionMode), Ok (ABool true)) l /\
      In (Call.IsAvailable (Entry AcquisitionMode "Continuous"), Ok (ABool true)) l /\
      In (Call.IsReadable (Entry AcquisitionMode "Continuous"), Ok (ABool true)) l /\
      In (Call.GetValue (Entry AcquisitionMode "Continuous"), Ok (AInt z)) l) /\
   (snd out = Ok true -> exists z, writes l = [Call.SetIntValue AcquisitionMode z])) /\
  (let out := disable_gamma sdk (cam, []) in
   let l := snd (fst out) in
   (forall n z r, In (Call.SetIntValue n z, r) l -> False) /\
   (forall n v r, In (Call.SetValue n v, r) l ->
      n = GammaEnable /\ v = VBool false /\
      In (Call.IsAvailable (Node GammaEnable), Ok (ABool true)) l /\
      In (Call.IsWritable (Node GammaEnable), Ok (ABool true)) l) /\
   (snd out = Ok true -> writes l = [Call.SetValue GammaEnable (VBool false)])).
Proof.
  cbv zeta. split.
  - unfold configure_acquisition_mode. unfold_dev.
    repeat next_call.
    all: split; [intros n v r Hin | split; [intros n z r Hin | intros Hr]]; by_log.
    all: try (eexists; reflexivity).
    all: repeat split; auto 20.
  - unfold disable_gamma. unfold_dev.
    repeat next_call.
    all: split; [intros n z r Hin | split; [intros n v r Hin | intros Hr]]; by_log.
    all: repeat split; auto 20.
Qed.

(** X13.  [configure_trigger] never writes to [TriggerSelector]: the constant
    [TriggerSelector_FrameStart] goes to [TriggerSource].  It accepts any
    trigger type: when it returns [True] it has switched the trigger mode off,
    written that constant to [TriggerSource], then [Line0] for ['hardware'],
    [Software] for ['software'] and nothing for any other type, and switched
    the trigger mode on. *)
Theorem trigger_writes (trigger_type : string) (cam : camera) :
  let out := configure_trigger sdk trigger_type (cam, []) in
  let l := snd (fst out) in
  (forall c r, In (c, r) l -> written_node c <> Some TriggerSelector) /\
  (snd out = Ok true ->
     writes l =
       [Call.SetValue TriggerMode (VConst TriggerMode_Off);
        Call.SetValue TriggerSource (VConst TriggerSelector_FrameStart)] ++
       trigger_source_writes trigger_type ++
       [Call.SetValue TriggerMode (VConst TriggerMode_On)]).
Proof.
  cbv zeta. unfold configure_trigger, trigger_source_writes.
  destruct (String.eqb trigger_type "hardware");
    [|destruct (String.eqb trigger_type "software")].
  all: unfold_dev; repeat next_call.
  all: split; [intros made r Hin | intros Hr]; by_log.
Qed.

(** ** What each function does with errors, and writes when it succeeds *)

Lemma acquisition_mode_cases :
  catches_spinnaker (configure_acquisition_mode sdk) /\
  (forall cam,
     let out := configure_acquisition_mode sdk (cam, []) in
     snd out = Ok true ->
     exists z, writes (snd (fst out)) = [Call.SetIntValue AcquisitionMode z]).
Proof.
  split; intros cam; cbv zeta; unfold configure_acquisition_mode; unfold_dev;
    repeat next_call; repeat split; by_log; eexists; reflexivity.
Qed.

Lemma exposure_cases exposure_time :
  catches_spinnaker (configure_exposure sdk exposure_time) /\
  (forall cam,
     let out := configure_exposure sdk exposure_time (cam, []) in
     snd out = Ok true ->
     exists mx,
       writes (snd (fst out)) =
         [Call.SetValue ExposureAuto (VConst ExposureAuto_Off);
          Call.SetValue ExposureTime (VFloat (py_min mx (inject_Z exposure_time)))]).
Proof.
  split; intros cam; cbv zeta; unfold configure_exposure; unfold_dev;
    repeat next_call; repeat split; by_log; eexists; reflexivity.
Qed.

Lemma gain_cases gain :
  catches_spinnaker (configure_gain sdk gain) /\
  (forall cam,
     let out := configure_gain sdk gain (cam, []) in
     snd out = Ok true ->
     exists off max_gain mx,
       writes (snd (fst out)) =
         [Call.SetIntValue GainAuto off;
          Call.SetValue Gain (VFloat (clamped_gain gain max_gain mx))]).
Proof.
  split; intros cam; cbv zeta; unfold configure_gain; unfold_dev;
    repeat next_call; repeat split; by_log; do 3 eexists; reflexivity.
Qed.

Lemma gamma_cases :
  catches_spinnaker (disable_gamma sdk) /\
  (forall cam,
     let out := disable_gamma sdk (cam, []) in
     snd out = Ok true ->
     writes (snd (fst out)) = [Call.SetValue GammaEnable (VBool false)]).
Proof.
  split; intros cam; cbv zeta; unfold disable_gamma; unfold_dev;
    repeat next_call; repeat split; by_log.
Qed.

Lemma trigger_cases trigger_type :
  catches_spinnaker (configure_trigger sdk trigger_type) /\
  (forall cam,
     let out := configure_trigger sdk trigger_type (cam, []) in
     snd out = Ok true ->
     writes (snd (fst out)) =
       [Call.SetValue TriggerMode (VConst TriggerMode_Off);
        Call.SetValue TriggerSource (VConst TriggerSelector_FrameStart)] ++
       trigger_source_writes trigger_type ++
       [Call.SetValue TriggerMode (VConst TriggerMode_On)]).
Proof.
  split; intros cam; cbv zeta; unfold configure_trigger, trigger_source_writes;
    (destruct (String.eqb trigger_type "hardware");
     [|destruct (String.eqb trigger_type "software")]);
    unfold_dev; repeat next_call; repeat split; by_log.
Qed.

(** X14.  The five functions with a [try] turn a [SpinnakerException] of the SDK
    into the result [False] and let every other exception of the SDK
    through; they raise nothing of their own. *)
Theorem spinnaker_errors_become_False :
  catches_spinnaker (configure_acquisition_mode sdk) /\
  (forall exposure_time, catches_spinnaker (configure_exposure sdk exposure_time)) /\
  (forall gain, catches_spinnaker (configure_gain sdk gain)) /\
  catches_spinnaker (disable_gamma sdk) /\
  (forall trigger_type, catches_spinnaker (configure_trigger sdk trigger_type)).
Proof.
  split; [apply acquisition_mode_cases|].
  split; [intros e; apply exposure_cases|].
  split; [intros g; apply gain_cases|].
  split; [apply gamma_cases | intros t; apply trigger_cases].
Qed.

Lemma buffer_cases bufferMode bufferSize cam :
  let out := configure_buffer sdk bufferMode bufferSize (cam, []) in
  let l := snd (fst out) in
  (forall e, snd out = Raise e <-> final_outcome l = Some (Raise e)) /\
  (snd out = Ok true ->
     known_mode bufferMode = true /\
     exists manual v,
       writes l = [Call.SetIntValue StreamBufferCountMode manual;
                   Call.SetValue StreamBufferCountManual (VInt bufferSize);
                   Call.SetIntValue StreamBufferHandlingMode v] /\
       In (Call.GetValue (Entry StreamBufferHandlingMode bufferMode), Ok (AInt v)) l) /\
  (known_mode bufferMode = false ->
     snd out <> Ok true /\
     (forall made r, In (made, r) l ->
        written_node made <> Some StreamBufferHandlingMode) /\
     (forall a, In (Call.GetValue (Node StreamBufferCountManual), Ok a) l ->
        snd out = Ok false /\
        exists manual,
          writes l = [Call.SetIntValue StreamBufferCountMode manual;
                      Call.SetValue StreamBufferCountManual (VInt bufferSize)])).
Proof.
  cbv zeta. unfold configure_buffer. unfold_dev. repeat next_call.
  all: match goal with
       | |- context [set_handling_mode] =>
           destruct (String.eqb_spec bufferMode "OldestFirst") as [->|_];
           [|destruct (String.eqb_spec bufferMode "NewestFirst") as [->|_];
             [|destruct (String.eqb_spec bufferMode "NewestOnly") as [->|_];
               [|destruct (String.eqb_spec bufferMode "OldestFirstOverwrite")
                   as [->|_]]]];
           unfold set_handling_mode; unfold_dev; repeat next_call
       | _ => idtac
       end.
  all: split; [intros e; split; intros He
              | split; [intros Hr
                       | intros Hk; split; [intros Hr
                                           | split; [intros made r Hin
                                                    | intros back Hin]]]].
  all: unfold known_mode in *; by_log.
  all: split; [reflexivity|];
       first [ eexists; reflexivity
             | do 2 eexists; split; [reflexivity | auto 30] ].
Qed.

(** X15.  [configure_buffer] has no [try]: it raises whatever an SDK call raises,
    [SpinnakerException] included.  When it returns [True] the buffer mode was
    one of the four it knows and it has written, in this order, the count
    mode [Manual], the buffer count [bufferSize] and the handling mode of that
    name.  With any other mode it never returns [True] and never writes the
    handling mode; but if it got as far as reading the count back, it
    returns [False] with the count mode and the count already written. *)
Theorem buffer_mode_checked_last (bufferMode : string) (bufferSize : Z) (cam : camera) :
  let out := configure_buffer sdk bufferMode bufferSize (cam, []) in
  let l := snd (fst out) in
  (forall e, snd out = Raise e <-> final_outcome l = Some (Raise e)) /\
  (snd out = Ok true ->
     known_mode bufferMode = true /\
     exists manual v,
       writes l = [Call.SetIntValue StreamBufferCountMode manual;
                   Call.SetValue StreamBufferCountManual (VInt bufferSize);
                   Call.SetIntValue StreamBufferHandlingMode v] /\
       In (Call.GetValue (Entry StreamBufferHandlingMode bufferMode), Ok (AInt v)) l) /\
  (known_mode bufferMode = false ->
     snd out <> Ok true /\
     (forall made r, In (made, r) l ->
        written_node made <> Some StreamBufferHandlingMode) /\
     (forall a, In (Call.GetValue (Node StreamBufferCountManual), Ok a) l ->
        snd out = Ok false /\
        exists manual,
          writes l = [Call.SetIntValue StreamBufferCountMode manual;
                      Call.SetValue StreamBufferCountManual (VInt bufferSize)])).
Proof. exact (buffer_cases bufferMode bufferSize cam). Qed.

(** ** Running the functions one after the other *)

Lemma framed_dret {A : Type} (a : A) : framed (@dret camera A a).
Proof. intros cam l. cbn. now rewrite app_nil_r. Qed.

Lemma framed_perform {A : Type} op (inj : A -> answer) c :
  framed (perform sdk op inj c).
Proof. intros cam l. unfold perform. cbn. now destruct (op sdk c cam). Qed.

Lemma framed_dbind {A B : Type} (m : @Dev camera A) (k : A -> @Dev camera B) :
  framed m -> (forall a, framed (k a)) -> framed (dbind m k).
Proof.
  intros Hm Hk cam l. unfold dbind. rewrite (Hm cam l).
  destruct (m (cam, [])) as [[cam1 l1] [a|e]]; cbn.
  - pose proof (Hk a cam1 (l ++ l1)) as H1. pose proof (Hk a cam1 l1) as H2.
    cbv zeta in H1, H2. unfold log in *. rewrite H1, H2.
    destruct (k a (cam1, [])) as [[cam2 l2] r]; cbn. now rewrite app_assoc.
  - reflexivity.
Qed.

Lemma framed_except (body : @Dev camera bool) :
  framed body -> framed (@except_spinnaker camera body).
Proof.
  intros Hb cam l. unfold except_spinnaker. rewrite (Hb cam l).
  now destruct (body (cam, [])) as [[cam1 l1] [a|[]]].
Qed.

Ltac frame_it :=
  unfold not_both, GetInstance, GetCameras, GetItem, DeInit, Init, GetNodeMap,
    GetTLStreamNodeMap, GetNode, GetEntryByName, GetCurrentEntry, IsAvailable,
    IsWritable, IsReadable, GetAccessMode, GetValue, GetValue_str, GetMax, GetMax_int,
    SetIntValue, SetValue, GetDisplayName, ToString;
  repeat first
    [ apply framed_except
    | apply framed_dbind; [|intros ?]
    | apply framed_perform
    | apply framed_dret
    | match goal with |- framed (if ?b then _ else _) => destruct b end ].

Lemma configure_acquisition_mode_framed : framed (configure_acquisition_mode sdk).
Proof. unfold configure_acquisition_mode. frame_it. Qed.

Lemma configure_exposure_framed e : framed (configure_exposure sdk e).
Proof. unfold configure_exposure. frame_it. Qed.

Lemma configure_gain_framed g : framed (configure_gain sdk g).
Proof. unfold configure_gain. frame_it. Qed.

Lemma disable_gamma_framed : framed (disable_gamma sdk).
Proof. unfold disable_gamma. frame_it. Qed.

Lemma configure_trigger_framed t : framed (configure_trigger sdk t).
Proof. unfold configure_trigger. frame_it. Qed.

Lemma configure_buffer_framed m n : framed (configure_buffer sdk m n).
Proof. unfold configure_buffer, set_handling_mode. frame_it. Qed.

Lemma step_from_log {A : Type} (m : @Dev camera A) :
  framed m ->
  forall cam l cam' l' r,
    m (cam, l) = ((cam', l'), r) ->
    exists new, l' = l ++ new /\ m (cam, []) = ((cam', new), r).
Proof.
  intros Hm cam l cam' l' r H. rewrite (Hm cam l) in H.
  destruct (m (cam, [])) as [[cam1 l1] r1]; cbn in H.
  injection H as <- <- <-. eauto.
Qed.

Lemma writes_app l l' : writes (l ++ l') = writes l ++ writes l'.
Proof. unfold writes. now rewrite flat_map_app. Qed.

Lemma final_outcome_app l l' o :
  final_outcome l' = Some o -> final_outcome (l ++ l') = Some o.
Proof.
  unfold final_outcome. rewrite rev_app_distr.
  now destruct (rev l') as [|x r].
Qed.

Lemma final_outcome_snoc l x : final_outcome (l ++ [x]) = Some (snd x).
Proof. now apply final_outcome_app. Qed.

(** ** The whole preparation, and opening the camera *)

(** What a step that ran after the calls [l] tells: its own calls [new],
    and its run on an empty log. *)
Ltac split_log H framed_lemma :=
  apply (step_from_log _ framed_lemma) in H;
  let new := fresh "new" in destruct H as (new & -> & H).

(** What one of the five functions with a [try] leaves when run after the
    calls [l]. *)
Lemma caught_step (m : @Dev camera bool) cam l cam' l' r :
  framed m -> catches_spinnaker m ->
  m (cam, l) = ((cam', l'), r) ->
  r <> Raise SpinnakerException /\
  (forall e, r = Raise e -> final_outcome l' = Some (Raise e)).
Proof.
  intros Hf Hc H. split_log H Hf.
  destruct (Hc cam) as (A & B & _). cbv zeta in A, B. rewrite H in A, B. cbn in A, B.
  split; [exact A|]. intros e He. apply final_outcome_app. auto.
Qed.

Lemma buffer_step m n cam l cam' l' r :
  configure_buffer sdk m n (cam, l) = ((cam', l'), r) ->
  forall e, r = Raise e -> final_outcome l' = Some (Raise e).
Proof.
  intros H e He. split_log H (configure_buffer_framed m n).
  pose proof (proj1 (buffer_cases m n cam) e) as B. cbv zeta in B.
  rewrite H in B. cbn in B. apply final_outcome_app, B, He.
Qed.

Ltac config_step f st :=
  let H := fresh "Hstep" in
  destruct (f st) as [[? ?] [[|]|?]] eqn:H; cbv beta iota zeta delta [fst snd].

Ltac next_config :=
  match goal with
  | |- context [configure_acquisition_mode sdk ?st] =>
      config_step (configure_acquisition_mode sdk) st
  | |- context [configure_exposure sdk ?a ?st] => config_step (configure_exposure sdk a) st
  | |- context [configure_gain sdk ?a ?st] => config_step (configure_gain sdk a) st
  | |- context [disable_gamma sdk ?st] => config_step (disable_gamma sdk) st
  | |- context [configure_trigger sdk ?a ?st] => config_step (configure_trigger sdk a) st
  | |- context [configure_buffer sdk ?a ?b ?st] => config_step (configure_buffer sdk a b) st
  end.

Ltac unfold_prepare :=
  unfold prepare_camera, Preparation.prepare_camera, Preparation.pbind,
    Preparation.call, Preparation.pret; cbv beta iota zeta delta [fst snd].

(** When [prepare_camera] raises, its last SDK call raised that exception;
    a [SpinnakerException] can only have come from [configure_buffer]. *)
Lemma prepare_camera_raise e0 g t mode size cam l steps0 cam' l' steps r :
  prepare_camera sdk e0 g t mode size ((cam, l), steps0) = (((cam', l'), steps), r) ->
  (forall e, r = Raise e -> final_outcome l' = Some (Raise e)) /\
  (r = Raise SpinnakerException ->
   exists before, steps = before ++ [(Preparation.Buffer, Raise SpinnakerException)]).
Proof.
  unfold_prepare. repeat next_config.
  all: intros [= <- <- <- <-].
  all: repeat match goal with
       | H : configure_buffer sdk _ _ _ = _ |- _ =>
           pose proof (buffer_step _ _ _ _ _ _ _ H); clear H
       | H : configure_acquisition_mode sdk _ = _ |- _ =>
           apply (caught_step _ _ _ _ _ _ configure_acquisition_mode_framed
                    (proj1 acquisition_mode_cases)) in H;
           destruct H as [? ?]
       | H : configure_exposure sdk _ _ = _ |- _ =>
           apply (caught_step _ _ _ _ _ _ (configure_exposure_framed _)
                    (proj1 (exposure_cases _))) in H;
           destruct H as [? ?]
       | H : configure_gain sdk _ _ = _ |- _ =>
           apply (caught_step _ _ _ _ _ _ (configure_gain_framed _)
                    (proj1 (gain_cases _))) in H;
           destruct H as [? ?]
       | H : disable_gamma sdk _ = _ |- _ =>
           apply (caught_step _ _ _ _ _ _ disable_gamma_framed
                    (proj1 gamma_cases)) in H;
           destruct H as [? ?]
       | H : configure_trigger sdk _ _ = _ |- _ =>
           apply (caught_step _ _ _ _ _ _ (configure_trigger_framed _)
                    (proj1 (trigger_cases _))) in H;
           destruct H as [? ?]
       end.
  all: split; [intros raised He | intros He]; try discriminate.
  all: try (injection He as ->).
  all: solve [auto | congruence | eexists; reflexivity].
Qed.

(** The log only grows along [prepare_camera]. *)
Lemma prepare_camera_log e0 g t mode size cam l steps0 cam' l' steps r :
  prepare_camera sdk e0 g t mode size ((cam, l), steps0) = (((cam', l'), steps), r) ->
  exists new, l' = l ++ new.
Proof.
  unfold_prepare. repeat next_config.
  all: intros [= <- <- <- <-].
  all: repeat match goal with
       | H : configure_buffer sdk _ _ _ = _ |- _ =>
           split_log H (configure_buffer_framed mode size); clear H
       | H : configure_acquisition_mode sdk _ = _ |- _ =>
           split_log H configure_acquisition_mode_framed; clear H
       | H : configure_exposure sdk _ _ = _ |- _ =>
           split_log H (configure_exposure_framed e0); clear H
       | H : configure_gain sdk _ _ = _ |- _ =>
           split_log H (configure_gain_framed g); clear H
       | H : disable_gamma sdk _ = _ |- _ =>
           split_log H disable_gamma_framed; clear H
       | H : configure_trigger sdk _ _ = _ |- _ =>
           split_log H (configure_trigger_framed t); clear H
       end.
  all: rewrite <- ?app_assoc; eexists; reflexivity.
Qed.

(** X16.  Everything a successful [prepare_camera] wrote to the camera, in
    order. *)
Theorem prepare_camera_configuration e0 g t mode size cam :
  let out := prepare_camera sdk e0 g t mode size ((cam, []), []) in
  let l := snd (fst (fst out)) in
  snd out = Ok true ->
  known_mode mode = true /\
  exists continuous mxe off max_gain mxg manual v,
    writes l =
      [Call.SetIntValue AcquisitionMode continuous;
       Call.SetValue ExposureAuto (VConst ExposureAuto_Off);
       Call.SetValue ExposureTime (VFloat (py_min mxe (inject_Z e0)));
       Call.SetIntValue GainAuto off;
       Call.SetValue Gain (VFloat (clamped_gain g max_gain mxg));
       Call.SetValue GammaEnable (VBool false);
       Call.SetValue TriggerMode (VConst TriggerMode_Off);
       Call.SetValue TriggerSource (VConst TriggerSelector_FrameStart)]
      ++ trigger_source_writes t
      ++ [Call.SetValue TriggerMode (VConst TriggerMode_On);
          Call.SetIntValue StreamBufferCountMode manual;
          Call.SetValue StreamBufferCountManual (VInt size);
          Call.SetIntValue StreamBufferHandlingMode v].
Proof.
  cbv zeta. unfold_prepare. repeat next_config.
  all: cbn [fst snd]; try discriminate.
  intros _.
  repeat match goal with
       | H : configure_buffer sdk _ _ (_, _ ++ _) = _ |- _ =>
           split_log H (configure_buffer_framed mode size)
       | H : configure_exposure sdk _ (_, _ ++ _) = _ |- _ =>
           split_log H (configure_exposure_framed e0)
       | H : configure_exposure sdk _ (_, ?l) = _ |- _ =>
           is_var l; split_log H (configure_exposure_framed e0)
       | H : configure_gain sdk _ (_, _ ++ _) = _ |- _ =>
           split_log H (configure_gain_framed g)
       | H : disable_gamma sdk (_, _ ++ _) = _ |- _ =>
           split_log H disable_gamma_framed
       | H : configure_trigger sdk _ (_, _ ++ _) = _ |- _ =>
           split_log H (configure_trigger_framed t)
       end.
  pose proof (proj2 acquisition_mode_cases cam) as W1; cbv zeta in W1;
    rewrite Hstep in W1; destruct (W1 eq_refl) as (continuous & E1); clear W1.
  pose proof (proj2 (exposure_cases e0) c) as W2; cbv zeta in W2;
    rewrite Hstep0 in W2; destruct (W2 eq_refl) as (mxe & E2); clear W2.
  pose proof (proj2 (gain_cases g) c0) as W3; cbv zeta in W3;
    rewrite Hstep1 in W3; destruct (W3 eq_refl) as (off & max_gain & mxg & E3); clear W3.
  pose proof (proj2 gamma_cases c1) as W4; cbv zeta in W4;
    rewrite Hstep2 in W4; specialize (W4 eq_refl).
  pose proof (proj2 (trigger_cases t) c2) as W5; cbv zeta in W5;
    rewrite Hstep3 in W5; specialize (W5 eq_refl).
  pose proof (buffer_cases mode size c3) as W6; cbv zeta in W6;
    rewrite Hstep4 in W6; destruct W6 as (_ & W6 & _);
    destruct (W6 eq_refl) as (K & manual & v & E6 & _); clear W6.
  cbn [fst snd] in *.
  split; [exact K|].
  exists continuous, mxe, off, max_gain, mxg, manual, v.
  rewrite !writes_app, E1, E2, E3, W4, W5, E6.
  repeat rewrite <- app_assoc. reflexivity.
Qed.

(** X17.  When [prepare_camera] raises, its last SDK call raised that
    exception, and a [SpinnakerException] came out of [configure_buffer]. *)
Theorem prepare_camera_raises_from_the_sdk e0 g t mode size cam raised :
  let out := prepare_camera sdk e0 g t mode size ((cam, []), []) in
  snd out = Raise raised ->
  final_outcome (snd (fst (fst out))) = Some (Raise raised) /\
  (raised = SpinnakerException ->
   exists before,
     snd (fst out) = before ++ [(Preparation.Buffer, Raise SpinnakerException)]).
Proof.
  cbv zeta.
  destruct (prepare_camera sdk e0 g t mode size (cam, [], []))
    as [[[cam' l'] steps] r] eqn:H.
  cbn [fst snd]. intros ->.
  apply prepare_camera_raise in H. destruct H as [A B].
  split; [now apply A|]. intros ->. now apply B.
Qed.

Ltac run_prepare :=
  match goal with
  | Hprep : ?prep = prepare_camera sdk _ _ _ _ _ |- context [?prep ?st] =>
      let H := fresh "Hp" in
      destruct (prep st) as [[[? ?] ?] [?|?]] eqn:H; cbn;
      rewrite Hprep in H;
      let new := fresh "new" in
      let E := fresh "E" in
      destruct (prepare_camera_log _ _ _ _ _ _ _ _ _ _ _ _ H) as (new & E);
      apply prepare_camera_raise in H; destruct H as [H _];
      rewrite E in *; clear E
  end.

Ltac open_camera_start k n :=
  cbv zeta; unfold OpenCamera;
  remember (prepare_camera sdk (exposure k) (gain k) "hardware" "OldestFirst" n)
    as prep eqn:Hprep;
  unfold_dev; do 5 (try next_call); try run_prepare.

(** X18.  [OpenCamera] fails only with what its last SDK call raised; when it
    returns, it has opened the selected camera first and read the width and
    the height last. *)
Theorem open_camera_outcome k n cam :
  let out := OpenCamera sdk k n (cam, []) in
  let l := snd (fst out) in
  match snd out with
  | Raise e => final_outcome l = Some (Raise e)
  | Ok info =>
      exists mid,
        l = [(Call.GetInstance, Ok AUnit); (Call.GetCameras, Ok AUnit);
             (Call.GetItem (cameraSelection k), Ok AUnit);
             (Call.DeInit, Ok AUnit); (Call.Init, Ok AUnit)] ++ mid ++
            [(Call.ToString Width, Ok (AStr (frameWidth info)));
             (Call.ToString Height, Ok (AStr (frameHeight info)))]
  end.
Proof.
  open_camera_start k n.
  all: try reflexivity.
  all: try (apply Hp; reflexivity).
  all: repeat next_call.
  all: try (apply (final_outcome_app [_; _; _; _; _]), final_outcome_snoc).
  all: eexists; do 5 f_equal; exact (eq_sym (app_assoc _ [_] [_])).
Qed.

(** X19.  The serial number and the model [OpenCamera] returns are empty unless
    the device gave them: the serial number is read only from a node whose
    access mode is [RO], the model only from a readable node. *)
Theorem device_info_from_the_device k n cam info :
  let out := OpenCamera sdk k n (cam, []) in
  let l := snd (fst out) in
  snd out = Ok info ->
  (cameraSerialNo info <> ""%string ->
   In (Call.GetAccessMode DeviceSerialNumber, Ok (AMode RO)) l /\
   In (Call.GetValue (Node DeviceSerialNumber), Ok (AStr (cameraSerialNo info))) l) /\
  (cameraModel info <> ""%string ->
   In (Call.IsReadable (Node DeviceDisplayName), Ok (ABool true)) l /\
   In (Call.ToString DeviceDisplayName, Ok (AStr (cameraModel info))) l).
Proof.
  open_camera_start k n.
  all: try discriminate.
  all: repeat next_call.
  all: try discriminate.
  all: intros [= <-]; cbn [cameraSerialNo cameraModel].
  all: split; intros Hne; try congruence.
  all: split.
  all: do 5 right; repeat rewrite in_app_iff; cbn [In]; auto 10.
Qed.
End SpinnakerFacts.

(** ** On the sample devices *)

Lemma prepare_camera_configuration_witness :
  let out := Spinnaker.prepare_camera Spinnaker.ready 5000 (1 # 2) "hardware" "OldestFirst" 100
               ((tt, []), []) in
  snd out = Ok true /\
  Spinnaker.known_mode "OldestFirst" = true /\
  exists continuous mxe off max_gain mxg manual v,
    Spinnaker.writes (snd (fst (fst out))) =
      [Spinnaker.Call.SetIntValue Spinnaker.AcquisitionMode continuous;
       Spinnaker.Call.SetValue Spinnaker.ExposureAuto
         (Spinnaker.VConst Spinnaker.ExposureAuto_Off);
       Spinnaker.Call.SetValue Spinnaker.ExposureTime
         (Spinnaker.VFloat (Spinnaker.py_min mxe (inject_Z 5000)));
       Spinnaker.Call.SetIntValue Spinnaker.GainAuto off;
       Spinnaker.Call.SetValue Spinnaker.Gain
         (Spinnaker.VFloat (Spinnaker.clamped_gain (1 # 2) max_gain mxg));
       Spinnaker.Call.SetValue Spinnaker.GammaEnable (Spinnaker.VBool false);
       Spinnaker.Call.SetValue Spinnaker.TriggerMode
         (Spinnaker.VConst Spinnaker.TriggerMode_Off);
       Spinnaker.Call.SetValue Spinnaker.TriggerSource
         (Spinnaker.VConst Spinnaker.TriggerSelector_FrameStart)]
      ++ Spinnaker.trigger_source_writes "hardware"
      ++ [Spinnaker.Call.SetValue Spinnaker.TriggerMode
            (Spinnaker.VConst Spinnaker.TriggerMode_On);
          Spinnaker.Call.SetIntValue Spinnaker.StreamBufferCountMode manual;
          Spinnaker.Call.SetValue Spinnaker.StreamBufferCountManual (Spinnaker.VInt 100);
          Spinnaker.Call.SetIntValue Spinnaker.StreamBufferHandlingMode v].
Proof.
  split; [reflexivity|].
  apply (prepare_camera_configuration Spinnaker.ready 5000 (1 # 2) "hardware" "OldestFirst" 100 tt).
  reflexivity.
Defined.

Lemma prepare_camera_raises_from_the_sdk_witness :
  let out := Spinnaker.prepare_camera Spinnaker.no_stream 5000 (1 # 2) "hardware" "OldestFirst"
               100 ((tt, []), []) in
  snd out = Raise SpinnakerException /\
  Spinnaker.final_outcome (snd (fst (fst out))) = Some (Raise SpinnakerException) /\
  (SpinnakerException = SpinnakerException ->
   exists before,
     snd (fst out) = before ++ [(Preparation.Buffer, Raise SpinnakerException)]).
Proof.
  split; [reflexivity|].
  apply (prepare_camera_raises_from_the_sdk Spinnaker.no_stream 5000 (1 # 2) "hardware"
           "OldestFirst" 100 tt SpinnakerException).
  reflexivity.
Defined.

Lemma device_info_from_the_device_witness :
  let k := Spinnaker.mkOpenKeys 0 5000 (1 # 2) in
  let info := Spinnaker.mkInfo "" "FLIR" "FLIR" "FLIR" in
  let out := Spinnaker.OpenCamera Spinnaker.ready k 100 (tt, []) in
  let l := snd (fst out) in
  snd out = Ok info /\
  (Spinnaker.cameraSerialNo info <> ""%string ->
   In (Spinnaker.Call.GetAccessMode Spinnaker.DeviceSerialNumber,
       Ok (Spinnaker.AMode Spinnaker.RO)) l /\
   In (Spinnaker.Call.GetValue (Spinnaker.Node Spinnaker.DeviceSerialNumber),
       Ok (Spinnaker.AStr (Spinnaker.cameraSerialNo info))) l) /\
  (Spinnaker.cameraModel info <> ""%string ->
   In (Spinnaker.Call.IsReadable (Spinnaker.Node Spinnaker.DeviceDisplayName),
       Ok (Spinnaker.ABool true)) l /\
   In (Spinnaker.Call.ToString Spinnaker.DeviceDisplayName,
       Ok (Spinnaker.AStr (Spinnaker.cameraModel info))) l).
Proof.
  split; [reflexivity|].
  apply (device_info_from_the_device Spinnaker.ready (Spinnaker.mkOpenKeys 0 5000 (1 # 2))
           100 tt (Spinnaker.mkInfo "" "FLIR" "FLIR" "FLIR")).
  reflexivity.
Defined.
